(** * taskgraph: health monitor and framework orchestration

    A shallow embedding of [pkg/etcdutil/healthy.go] and [framework.go],
    followed by the properties of the heartbeat TTL, of failure detection,
    of the readiness watches, of role classification and of shutdown. *)

From stdpp Require Import base list strings gmap pretty.
From Stdlib Require Import ZArith Lia.

Local Open Scope Z_scope.

(** ** Machine integers *)

(** [uint64] values are integers in [0, 2^64); arithmetic wraps around. *)
Definition uint64_modulus : Z := 2 ^ 64.

Definition uint64_add (a b : Z) : Z := (a + b) mod uint64_modulus.

(** ** The coordination store client (go-etcd), as far as the code uses it *)

Module Etcd.

Record node := { Key : string; Value : string }.

(** [etcd.Response]: the fields the repository reads. *)
Record Response := { Action : string; Node : node; EtcdIndex : Z }.

(** A Go [error] value returned by the client. *)
Inductive error :=
| EtcdError (code : Z) (message : string)
| ClientError (message : string).

(** The store answers a read of an absent key with error code 100. *)
Definition ErrKeyNotFound : error := EtcdError 100 "Key not found".

(** A watch interrupted through its stop channel. *)
Definition ErrWatchStoppedByUser : error :=
  ClientError "Watch stopped by the user".

(** The response-or-error pair every client call returns. *)
Inductive reply :=
| Ok (resp : Response)
| Err (e : error).

(** The keys of the store and its change index. *)
Record store := { kv : gmap string string; index : Z }.

(** A client either reaches a store or fails every call with an error
    (cluster unreachable, client closed). *)
Inductive client :=
| Connected (s : store)
| Unreachable (e : error).

(** [client.Get(key, false, false)] *)
Definition Get (c : client) (key : string) : reply :=
  match c with
  | Unreachable e => Err e
  | Connected s =>
      match kv s !! key with
      | Some v =>
          Ok {| Action := "get";
                Node := {| Key := key; Value := v |};
                EtcdIndex := index s |}
      | None => Err ErrKeyNotFound
      end
  end.

(** The requests a process sends that change the store (its writes);
    watches are not among them. *)
Inductive request :=
| ReqCreate (key value : string) (ttl : Z)
| ReqSet (key value : string) (ttl : Z).

(** [client.Set(key, value, 0)] on the store: the key is overwritten, the
    index advances, and the change is published as a "set" event. TTL 0
    asks for no expiry; the store below keeps no time, so it stands for
    the real one only where keys are written with TTL 0. *)
Definition applySet (s : store) (key value : string) : store * Response :=
  let i := uint64_add (index s) 1 in
  ({| kv := <[key := value]> (kv s); index := i |},
   {| Action := "set";
      Node := {| Key := key; Value := value |};
      EtcdIndex := i |}).

(** [client.Create(key, value, 0)] on the store: an existing key is left
    as it is and nothing is published. *)
Definition applyCreate (s : store) (key value : string)
    : store * list Response :=
  match kv s !! key with
  | Some _ => (s, [])
  | None =>
      let i := uint64_add (index s) 1 in
      ({| kv := <[key := value]> (kv s); index := i |},
       [{| Action := "create";
           Node := {| Key := key; Value := value |};
           EtcdIndex := i |}])
  end.

(** The store serving one request: the new store and the events it
    publishes to the watches. The TTL of the request is not kept: a key
    never lapses here and no "expire" event is published, which is the
    store's behaviour for the requests with TTL 0. *)
Definition serve (s : store) (r : request) : store * list Response :=
  match r with
  | ReqCreate key value _ => applyCreate s key value
  | ReqSet key value _ =>
      let '(s', ev) := applySet s key value in (s', [ev])
  end.

(** A watch on [path] (not recursive) is notified of the changes of that
    very key. *)
Definition notifies (path : string) (ev : Response) : bool :=
  bool_decide (Key (Node ev) = path).

(** The store serving the requests of [rs] one after the other. *)
Fixpoint serveAll (s : store) (rs : list request) : store * list Response :=
  match rs with
  | [] => (s, [])
  | r :: rs' =>
      let '(s1, evs1) := serve s r in
      let '(s2, evs2) := serveAll s1 rs' in
      (s2, evs1 ++ evs2)
  end.

End Etcd.

(** ** Store paths *)

(** Modelled from the spec: the path helpers [HealthyPath],
    [MakeParentMetaPath] and [MakeChildMetaPath] are defined outside
    [healthy.go] and [framework.go]; the namespace table gives
    [/health/{N}/{T}],
    [/parentMeta/{N}/{T}] and [/childMeta/{N}/{T}]. The task identifier is
    printed in decimal. *)
Definition storePath (prefix name : string) (taskID : Z) : string :=
  "/" +:+ prefix +:+ "/" +:+ name +:+ "/" +:+ pretty (Z.to_N taskID).

Definition HealthyPath (name : string) (taskID : Z) : string :=
  storePath "health" name taskID.

Definition MakeParentMetaPath (name : string) (taskID : Z) : string :=
  storePath "parentMeta" name taskID.

Definition MakeChildMetaPath (name : string) (taskID : Z) : string :=
  storePath "childMeta" name taskID.

(** ** pkg/etcdutil/healthy.go *)

Module Etcdutil.
Import Etcd.

(** [time.Second], in nanoseconds. *)
Definition Second : Z := 1000000000.

(** [uint64(x)] for a [float64] that holds an integer: the value itself
    when [uint64] can represent it; otherwise Go leaves the result to the
    implementation, which is [None] here. *)
Definition uint64_of_float64 (x : Z) : option Z :=
  if bool_decide (0 ≤ x < uint64_modulus) then Some x else None.

(** [computeTTL]: [uint64(math.Min(5*float64(interval/time.Second), 1))].

    [interval / time.Second] divides two [int64] and truncates towards
    zero. Its magnitude is below [2^34], so the conversion to [float64],
    the product with 5 and the minimum with 1 are exact: the floats
    involved are the integers they denote. *)
Definition computeTTL (interval : Z) : option Z :=
  uint64_of_float64 (Z.min (5 * (interval ÷ Second)) 1).

(** What a call of [DetectFailure] came to: the pair it returned, or a
    wait inside [client.Watch] that nothing has answered yet. *)
Inductive outcome :=
| Returned (taskID : Z) (err : option error)
| Blocked.

(** The outcome together with the [waitIndex] of every [Watch] call
    issued, oldest first. *)
Record run := { result : outcome; watchCalls : list Z }.

(** [resp.Action == "delete" || resp.Action == "expire"] *)
Definition confirmsFailure (resp : Response) : bool :=
  bool_decide (Action resp = "delete") || bool_decide (Action resp = "expire").

(** [resp.EtcdIndex + 1], the [waitIndex] of the watch that follows a
    response. *)
Definition nextWaitIndex (resp : Response) : Z :=
  uint64_add (EtcdIndex resp) 1.

(** The [for] loop of [DetectFailure]. [replies] are the answers of the
    successive [client.Watch(key, waitIndex, false, nil, stop)] calls; a
    closed stop channel or a closed client answers with an error. *)
Fixpoint watchLoop (taskID waitIndex : Z) (replies : list reply) : run :=
  match replies with
  | [] => {| result := Blocked; watchCalls := [waitIndex] |}
  | Err err :: _ =>
      {| result := Returned 0 (Some err); watchCalls := [waitIndex] |}
  | Ok resp :: replies' =>
      if confirmsFailure resp
      then {| result := Returned taskID None; watchCalls := [waitIndex] |}
      else
        let r := watchLoop taskID (nextWaitIndex resp) replies' in
        {| result := result r; watchCalls := waitIndex :: watchCalls r |}
  end.

(** [DetectFailure(client, name, taskID, stop)] *)
Definition DetectFailure (c : client) (replies : list reply)
    (name : string) (taskID : Z) : run :=
  let key := HealthyPath name taskID in
  match Get c key with
  | Err _ => {| result := Returned taskID None; watchCalls := [] |}
  | Ok resp => watchLoop taskID (nextWaitIndex resp) replies
  end.

(** One turn of the loop of [Heartbeat], as the store and the clock decide
    it: [client.Set] fails, or it succeeds and [time.After(interval)] fires
    first, or it succeeds and [stop] fires first. *)
Inductive beat :=
| SetFails (err : error)
| SetThenTick
| SetThenStop.

(** How a call of [Heartbeat] stands: returned, or still in its loop. *)
Inductive heartbeatEnd :=
| HbReturned (err : option error)
| HbRunning.

(** The state of the call and the [client.Set] requests that have been
    answered, oldest first. *)
Record heartbeatRun := { hbEnd : heartbeatEnd; hbWrites : list request }.

(** The [uint64] that [computeTTL(interval)] is when the program runs.
    Where Go leaves the conversion of the negative float to the
    implementation ([computeTTL] is [None]) the program still gets a
    number: the one taken here is what the gc compiler computes on amd64,
    where the float goes through [int64] and is read as unsigned, that is
    modulo [2^64]. Other targets may give another number. *)
Definition runtimeTTL (interval : Z) : Z :=
  match computeTTL interval with
  | Some ttl => ttl
  | None => (Z.min (5 * (interval ÷ Second)) 1) mod uint64_modulus
  end.

(** [Heartbeat(client, name, taskID, interval, stop)] *)
Fixpoint Heartbeat (beats : list beat) (name : string) (taskID : Z)
    (interval : Z) : heartbeatRun :=
  match beats with
  | [] => {| hbEnd := HbRunning; hbWrites := [] |}
  | b :: beats' =>
      let write :=
        ReqSet (HealthyPath name taskID) "health" (runtimeTTL interval) in
      match b with
      | SetFails err =>
          {| hbEnd := HbReturned (Some err); hbWrites := [write] |}
      | SetThenStop =>
          {| hbEnd := HbReturned None; hbWrites := [write] |}
      | SetThenTick =>
          let r := Heartbeat beats' name taskID interval in
          {| hbEnd := hbEnd r; hbWrites := write :: hbWrites r |}
      end
  end.

End Etcdutil.

(** ** framework.go *)

Module Meritop.
Import Etcd.

Inductive taskRole :=
| noneRole
| parentRole
| childRole.

Definition DataRequestPrefix : string := "/datareq".
Definition DataRequestTaskID : string := "taskID".
Definition DataRequestReq : string := "req".

(** *** The interfaces the framework is given *)

(** [Topology]: the neighbours of every task at every epoch, and the task
    whose neighbours [GetParents] and [GetChildren] answer for. *)
Record Topology := {
  observer : Z;
  parentsOf : Z → Z → list Z;
  childrenOf : Z → Z → list Z
}.

Definition SetTaskID (t : Topology) (taskID : Z) : Topology :=
  {| observer := taskID; parentsOf := parentsOf t; childrenOf := childrenOf t |}.

Definition GetParents (t : Topology) (epoch : Z) : list Z :=
  parentsOf t (observer t) epoch.

Definition GetChildren (t : Topology) (epoch : Z) : list Z :=
  childrenOf t (observer t) epoch.

(** [Task]: the two serving methods answer with bytes. *)
Record Task := {
  ServeAsParent : Z → string → list Byte.byte;
  ServeAsChild : Z → string → list Byte.byte
}.

(** A call of a [Task] method, as the framework issues it. *)
Inductive taskCall :=
| CallSetEpoch (epoch : Z)
| CallInit (taskID : Z)
| CallParentMetaReady (fromID : Z) (meta : string)
| CallChildMetaReady (fromID : Z) (meta : string)
| CallServeAsParent (fromID : Z) (req : string)
| CallServeAsChild (fromID : Z) (req : string).

(** *** Process state *)

(** A [chan bool]: [nil], or a channel of the process heap. *)
Inductive chan :=
| nilChan
| Chan (id : nat).

(** The [taskCallback] a neighbour watch was given. *)
Inductive metaCallback :=
| ParentMetaReady
| ChildMetaReady.

(** One iteration of [watchAll] starts two goroutines joined by their
    [receiver] channel: [etcdClient.Watch(watchPath, 0, false, receiver,
    stop)] and the loop that hands what it receives to [taskCallback]. *)
Record watcher := {
  watchPath : string;
  stop_ : chan;
  taskCallback : metaCallback;
  neighbor : Z
}.

Inductive server :=
| HttpServerForDataRequest
| DataResponseEventLoop.

(** The fields of [framework] that the functions below read or write. *)
Record framework := {
  name : string;
  task : Task;
  topology : Topology;
  taskID : Z;
  epoch : Z;
  stops : list chan
}.

(** A running process: the framework value, the heap of stop channels
    ([true] once closed), and what the process has written to the store,
    started and called so far, oldest first. *)
Record proc := {
  fw : framework;
  chans : list bool;
  etcdReqs : list request;
  watchers : list watcher;
  servers : list server;
  taskCalls : list taskCall
}.

Definition with_fw (g : framework → framework) (p : proc) : proc :=
  {| fw := g (fw p); chans := chans p; etcdReqs := etcdReqs p;
     watchers := watchers p; servers := servers p; taskCalls := taskCalls p |}.

Definition with_chans (h : list bool) (p : proc) : proc :=
  {| fw := fw p; chans := h; etcdReqs := etcdReqs p;
     watchers := watchers p; servers := servers p; taskCalls := taskCalls p |}.

(** *** Steps of a process: state passing, with panics *)

Inductive result (A : Type) :=
| Done (a : A)
| Panic (msg : string).
Arguments Done {A} a.
Arguments Panic {A} msg.

Definition M (A : Type) : Type := proc → result (A * proc).

#[export] Instance M_ret : MRet M := λ A a p, Done (a, p).

#[export] Instance M_bind : MBind M := λ A B k m p,
  match m p with
  | Done (a, p') => k a p'
  | Panic msg => Panic msg
  end.

Definition panic {A} (msg : string) : M A := λ _, Panic msg.

Definition getf : M framework := λ p, Done (fw p, p).

Definition modf (g : framework → framework) : M unit :=
  λ p, Done (tt, with_fw g p).

(** [make(chan bool, 1)] *)
Definition makeChan : M chan :=
  λ p, Done (Chan (length (chans p)), with_chans (chans p ++ [false]) p).

(** [close(c)]: closing [nil] or a closed channel panics. *)
Definition closeChan (c : chan) : M unit := λ p,
  match c with
  | nilChan => Panic "close of nil channel"
  | Chan i =>
      match chans p !! i with
      | Some false => Done (tt, with_chans (<[i := true]> (chans p)) p)
      | _ => Panic "close of closed channel"
      end
  end.

Definition send (r : request) : M unit := λ p,
  Done (tt, {| fw := fw p; chans := chans p; etcdReqs := etcdReqs p ++ [r];
               watchers := watchers p; servers := servers p;
               taskCalls := taskCalls p |}).

Definition goWatch (w : watcher) : M unit := λ p,
  Done (tt, {| fw := fw p; chans := chans p; etcdReqs := etcdReqs p;
               watchers := watchers p ++ [w]; servers := servers p;
               taskCalls := taskCalls p |}).

Definition go (s : server) : M unit := λ p,
  Done (tt, {| fw := fw p; chans := chans p; etcdReqs := etcdReqs p;
               watchers := watchers p; servers := servers p ++ [s];
               taskCalls := taskCalls p |}).

Definition call (c : taskCall) : M unit := λ p,
  Done (tt, {| fw := fw p; chans := chans p; etcdReqs := etcdReqs p;
               watchers := watchers p; servers := servers p;
               taskCalls := taskCalls p ++ [c] |}).

(** *** The methods *)

Definition GetTaskID (f : framework) : Z := taskID f.

(** The [for _, id := range ids] scan of [parentOrChild]. *)
Fixpoint occurs (taskID : Z) (ids : list Z) : bool :=
  match ids with
  | [] => false
  | id :: ids' => if bool_decide (taskID = id) then true else occurs taskID ids'
  end.

Definition parentOrChild (f : framework) (taskID : Z) : taskRole :=
  if occurs taskID (GetParents (topology f) (epoch f)) then parentRole
  else if occurs taskID (GetChildren (topology f) (epoch f)) then childRole
  else noneRole.

(** The [switch who] of [watchAll]: the path to watch and the callback,
    [None] where the code panics. *)
Definition watchTarget (who : taskRole) (f : framework) (taskID : Z)
    : option (string * metaCallback) :=
  match who with
  | parentRole => Some (MakeChildMetaPath (name f) taskID, ParentMetaReady)
  | childRole => Some (MakeParentMetaPath (name f) taskID, ChildMetaReady)
  | noneRole => None
  end.

(** The loop of [watchAll], from index [i] on. *)
Fixpoint watchAllFrom (who : taskRole) (i : nat) (taskIDs : list Z)
    (stops : list chan) : M (list chan) :=
  match taskIDs with
  | [] => mret stops
  | taskID :: taskIDs' =>
      stop ← makeChan;
      let stops := <[i := stop]> stops in
      f ← getf;
      match watchTarget who f taskID with
      | None => panic "unimplemented"
      | Some (path, callback) =>
          goWatch {| watchPath := path; stop_ := stop;
                     taskCallback := callback; neighbor := taskID |};;
          watchAllFrom who (S i) taskIDs' stops
      end
  end.

Definition watchAll (who : taskRole) (taskIDs : list Z) : M (list chan) :=
  watchAllFrom who 0 taskIDs (replicate (length taskIDs) nilChan).

Definition start : M unit :=
  modf (λ f, {| name := name f; task := task f;
                topology := SetTaskID (topology f) (taskID f);
                taskID := taskID f; epoch := 0; stops := [] |});;
  f ← getf;
  send (ReqCreate (MakeParentMetaPath (name f) (GetTaskID f)) "" 0);;
  send (ReqCreate (MakeChildMetaPath (name f) (GetTaskID f)) "" 0);;
  parentStops ← watchAll parentRole (GetParents (topology f) (epoch f));
  childStops ← watchAll childRole (GetChildren (topology f) (epoch f));
  modf (λ f, {| name := name f; task := task f; topology := topology f;
                taskID := taskID f; epoch := epoch f;
                stops := stops f ++ parentStops |});;
  modf (λ f, {| name := name f; task := task f; topology := topology f;
                taskID := taskID f; epoch := epoch f;
                stops := stops f ++ childStops |});;
  go HttpServerForDataRequest;;
  go DataResponseEventLoop;;
  f ← getf;
  call (CallSetEpoch (epoch f));;
  call (CallInit (taskID f)).

(** [for _, c := range f.stops { close(c) }] *)
Fixpoint closeAll (cs : list chan) : M unit :=
  match cs with
  | [] => mret tt
  | c :: cs' => closeChan c;; closeAll cs'
  end.

Definition stop : M unit :=
  f ← getf;
  closeAll (stops f).

Definition FlagParentMetaReady (meta : string) : M unit :=
  f ← getf;
  send (ReqSet (MakeParentMetaPath (name f) (GetTaskID f)) meta 0).

Definition FlagChildMetaReady (meta : string) : M unit :=
  f ← getf;
  send (ReqSet (MakeChildMetaPath (name f) (GetTaskID f)) meta 0).

Definition SetEpoch (e : Z) : M unit :=
  modf (λ f, {| name := name f; task := task f; topology := topology f;
                taskID := taskID f; epoch := e; stops := stops f |}).

(** [Exit] has an empty body. *)
Definition Exit : M unit := mret tt.

(** *** The goroutines of a neighbour watch *)

Definition invoke (cb : metaCallback) (taskID : Z) (meta : string) : taskCall :=
  match cb with
  | ParentMetaReady => CallParentMetaReady taskID meta
  | ChildMetaReady => CallChildMetaReady taskID meta
  end.

(** The receiving goroutine: [received] is what arrives on [receiver]
    before it is closed; the result is the calls made, in order. *)
Fixpoint receiveLoop (cb : metaCallback) (taskID : Z)
    (received : list Response) : list taskCall :=
  match received with
  | [] => []
  | resp :: received' =>
      if bool_decide (Action resp ≠ "set")
      then receiveLoop cb taskID received'
      else invoke cb taskID (Value (Node resp)) :: receiveLoop cb taskID received'
  end.

(** A watch runs until its stop channel is closed. *)
Definition running (p : proc) (w : watcher) : bool :=
  match stop_ w with
  | nilChan => true
  | Chan i => bool_decide (chans p !! i = Some false)
  end.

(** The calls a watcher of process [p] makes when the store publishes
    [events]: the watching goroutine forwards the changes of its path to
    [receiver], the receiving goroutine handles them. *)
Definition reaction (p : proc) (w : watcher) (events : list Response)
    : list taskCall :=
  if running p w
  then receiveLoop (taskCallback w) (neighbor w)
         (filter (λ ev, notifies (watchPath w) ev = true) events)
  else [].

(** *** The data request handler *)

(** What became of one inbound request. *)
Inductive handled :=
| Respond (served : taskCall) (body : list Byte.byte)
| HandlerPanic (msg : string)
| Fatal (msg : string).

(** The handler once the requester is parsed: role dispatch and reply. *)
Definition serveDataReq (f : framework) (fromID : Z) (req : string) : handled :=
  match parentOrChild f fromID with
  | parentRole => Respond (CallServeAsChild fromID req) (ServeAsChild (task f) fromID req)
  | childRole => Respond (CallServeAsParent fromID req) (ServeAsParent (task f) fromID req)
  | noneRole => HandlerPanic "unimplemented"
  end.

(** [newDataReqHandler]: [query] is [r.URL.Query().Get], [ParseUint] is
    [strconv.ParseUint(_, 0, 64)], [None] when it reports an error. *)
Definition newDataReqHandler (ParseUint : string → option Z)
    (f : framework) (query : string → string) : handled :=
  let fromIDStr := query DataRequestTaskID in
  match ParseUint fromIDStr with
  | None => Fatal ("taskID in query couldn't be parsed: " +:+ fromIDStr)
  | Some fromID =>
      let req := query DataRequestReq in
      serveDataReq f fromID req
  end.

(** A process before [start]: the framework as the bootstrap builds it. *)
Definition newProc (name : string) (task : Task) (topology : Topology)
    (taskID : Z) : proc :=
  {| fw := {| name := name; task := task; topology := topology;
              taskID := taskID; epoch := 0; stops := [] |};
     chans := []; etcdReqs := []; watchers := []; servers := [];
     taskCalls := [] |}.

(** *** Data requests and their responses *)

(** [dataResponse]; the fields are [taskID], [req] and [data]. *)
Record dataResponse := {
  dr_taskID : Z;
  dr_req : string;
  dr_data : list Byte.byte
}.

(** A call of [ParentDataReady] or [ChildDataReady], each started on a
    goroutine of its own. *)
Inductive dataCall :=
| CallParentDataReady (fromID : Z) (req : string) (data : list Byte.byte)
| CallChildDataReady (fromID : Z) (req : string) (data : list Byte.byte).

(** How far [dataResponseEventLoop] got: waiting on [dataRespChan], or
    stopped by a panic. *)
Inductive loopEnd :=
| Waiting
| LoopPanic (msg : string).

(** [dataResponseEventLoop]: [queue] is what arrives on [dataRespChan],
    oldest first; the framework stays as it is meanwhile. *)
Fixpoint dataResponseEventLoop (f : framework) (queue : list dataResponse)
    : list dataCall * loopEnd :=
  match queue with
  | [] => ([], Waiting)
  | dataResp :: queue' =>
      match parentOrChild f (dr_taskID dataResp) with
      | parentRole =>
          let '(calls, e) := dataResponseEventLoop f queue' in
          (CallParentDataReady (dr_taskID dataResp) (dr_req dataResp)
             (dr_data dataResp) :: calls, e)
      | childRole =>
          let '(calls, e) := dataResponseEventLoop f queue' in
          (CallChildDataReady (dr_taskID dataResp) (dr_req dataResp)
             (dr_data dataResp) :: calls, e)
      | noneRole => ([], LoopPanic "unimplemented")
      end
  end.

(** [strconv.FormatUint(_, 10)] *)
Definition FormatUint (n : Z) : string := pretty (Z.to_N n).

(** A [url.URL] with its query values, in the order of [q.Add]. *)
Record url := {
  Scheme : string;
  Host : string;
  Path : string;
  Query : list (string * string)
}.

(** [url.Values.Get]: the first value of the key, or the empty string. *)
Fixpoint queryGet (q : list (string * string)) (key : string) : string :=
  match q with
  | [] => ""
  | (k, v) :: q' => if bool_decide (k = key) then v else queryGet q' key
  end.

(** What [DataRequest] does before it returns: [log.Fatalf], or the start
    of a goroutine that fetches the URL. *)
Inductive requested :=
| RequestFatal (msg : string)
| Fetching (u : url).

(** [DataRequest(toID, req)], up to the [go] statement; [addressMap] is
    [f.addressMap]. *)
Definition DataRequest (f : framework) (addressMap : gmap Z string)
    (toID : Z) (req : string) : requested :=
  match addressMap !! toID with
  | None => RequestFatal ("ID = " +:+ FormatUint toID +:+ " not found")
  | Some addr =>
      Fetching {| Scheme := "http";
                  Host := addr;
                  Path := DataRequestPrefix;
                  Query := [(DataRequestTaskID, FormatUint (taskID f));
                            (DataRequestReq, req)] |}
  end.

(** What [http.Get] and [ioutil.ReadAll] give the goroutine: an error of
    [http.Get], or a status code with the body, [None] when reading the
    body fails. *)
Inductive httpResult :=
| GetFailed
| GetResponded (StatusCode : Z) (body : option (list Byte.byte)).

(** Why the goroutine ends in [log.Fatalf]. *)
Inductive fetchFailure :=
| GetReturnedError
| ResponseCode (code : Z)
| ReadAllReturnedError.

Inductive fetched :=
| FetchFatal (why : fetchFailure)
| Enqueued (dataResp : dataResponse).

(** The goroutine of [DataRequest], after [http.Get]. *)
Definition awaitResponse (toID : Z) (req : string) (r : httpResult) : fetched :=
  match r with
  | GetFailed => FetchFatal GetReturnedError
  | GetResponded code body =>
      if bool_decide (code ≠ 200) then FetchFatal (ResponseCode code)
      else
        match body with
        | None => FetchFatal ReadAllReturnedError
        | Some data =>
            Enqueued {| dr_taskID := toID; dr_req := req; dr_data := data |}
        end
  end.

(** The HTTP exchange between the goroutine and the handler of the peer
    (net/http): a handler that writes its bytes answers 200 with them; a
    handler that panics, or a server that exits, breaks the connection and
    [http.Get] returns an error. *)
Definition roundTrip (ParseUint : string → option Z) (server : framework)
    (u : url) : httpResult :=
  match newDataReqHandler ParseUint server (queryGet (Query u)) with
  | Respond _ body => GetResponded 200 (Some body)
  | HandlerPanic _ => GetFailed
  | Fatal _ => GetFailed
  end.

End Meritop.

(** ** sort.Search (Go standard library) *)

Module Sort.

(** The loop of [sort.Search]: [i < j] is tested, [h] is the midpoint, and
    the half that cannot hold the answer is dropped. [fuel] bounds the
    number of turns. *)
Fixpoint searchLoop (fuel : nat) (f : nat → bool) (i j : nat) : nat :=
  match fuel with
  | O => i
  | S fuel' =>
      if bool_decide (i < j)%nat then
        let h := ((i + j) / 2)%nat in
        if negb (f h) then searchLoop fuel' f (h + 1)%nat j
        else searchLoop fuel' f i h
      else i
  end.

(** [sort.Search(n, f)]: the interval has length [n] at first and shrinks
    at every turn, so [n] turns are enough. *)
Definition Search (n : nat) (f : nat → bool) : nat := searchLoop n f 0 n.

End Sort.

(** ** example/bwmf/kldiv_loss.go *)

Module Bwmf.

(** [s[i]] for an [int] index: [None] stands for the panic of an index out
    of range. *)
Definition index {A} (s : list A) (i : Z) : option A :=
  if bool_decide (0 ≤ i) then s !! Z.to_nat i else None.

Section KLDivLoss.
(** [RowData] is the [At] map of a row, [float32] the type of [smooth];
    the code below only moves them around. A shard is its [Row] slice. *)
Context {RowData float32 : Type}.

Record KLDivLoss := {
  V : list RowData;
  W : list (list RowData);
  m : Z;
  n : Z;
  k : Z;
  smooth : float32;
  ends : list Z
}.

(** The [for i, m := range w] loop of [NewKLDivLoss], from index [i] on:
    the slice [stt] and the running offset [ost]. *)
Fixpoint fillStarts (i : nat) (ost : Z) (w : list (list RowData))
    (stt : list Z) : list Z * Z :=
  match w with
  | [] => (stt, ost)
  | shard :: w' =>
      fillStarts (S i) (ost + Z.of_nat (length shard)) w' (<[i := ost]> stt)
  end.

Definition NewKLDivLoss (v : list RowData) (w : list (list RowData))
    (m n k : Z) (smooth : float32) : KLDivLoss :=
  let stt := replicate (length w + 1) 0 in
  let '(stt, ost) := fillStarts 0 0 w stt in
  let stt := <[length w := ost]> stt in
  {| V := v; W := w; m := m; n := n; k := k; smooth := smooth; ends := stt |}.

(** [GetWRow(row)]: [None] stands for a panic (index out of range). *)
Definition GetWRow (l : KLDivLoss) (row : Z) : option RowData :=
  let b :=
    Z.of_nat (Sort.Search (length (ends l))
                (λ i, bool_decide (ends l !!! i > row))) - 1 in
  shard ← index (W l) b;
  start ← index (ends l) b;
  index shard (row - start).

End KLDivLoss.

Arguments KLDivLoss : clear implicits.

End Bwmf.

(** ** Closed forms of what [watchAll] and [start] build

    These are not taken from the code: [watchAll_spec] and [start_spec]
    prove that the code computes them. *)

Module Expected.
Import Etcd Meritop.

(** One watcher per identifier, on channels [base], [base + 1], ... *)
Fixpoint neighborWatches (path : Z → string) (cb : metaCallback)
    (base : nat) (ids : list Z) : list watcher :=
  match ids with
  | [] => []
  | id :: ids' =>
      {| watchPath := path id; stop_ := Chan base;
         taskCallback := cb; neighbor := id |}
      :: neighborWatches path cb (S base) ids'
  end.

(** The channels [base], ..., [base + n - 1]. *)
Fixpoint freshChans (base : nat) (n : nat) : list chan :=
  match n with
  | O => []
  | S n' => Chan base :: freshChans (S base) n'
  end.

(** The process that [start] leaves behind. *)
Definition started (p : proc) : proc :=
  let f := fw p in
  let t := SetTaskID (topology f) (taskID f) in
  let n := length (chans p) in
  let np := length (GetParents t 0) in
  let nc := length (GetChildren t 0) in
  {| fw := {| name := name f; task := task f; topology := t;
              taskID := taskID f; epoch := 0;
              stops := freshChans n np ++ freshChans (n + np) nc |};
     chans := (chans p ++ replicate np false) ++ replicate nc false;
     etcdReqs := etcdReqs p ++
       [ReqCreate (MakeParentMetaPath (name f) (taskID f)) "" 0;
        ReqCreate (MakeChildMetaPath (name f) (taskID f)) "" 0];
     watchers := (watchers p ++
       neighborWatches (MakeChildMetaPath (name f)) ParentMetaReady n
         (GetParents t 0)) ++
       neighborWatches (MakeParentMetaPath (name f)) ChildMetaReady (n + np)
         (GetChildren t 0);
     servers := servers p ++ [HttpServerForDataRequest; DataResponseEventLoop];
     taskCalls := taskCalls p ++ [CallSetEpoch 0; CallInit (taskID f)] |}.

(** The offsets [NewKLDivLoss] stores in [ends]: [ost], then one entry more
    per shard, each the previous one plus the number of rows of the shard. *)
Fixpoint offsets {RowData : Type} (ost : Z) (w : list (list RowData))
    : list Z :=
  ost :: match w with
         | [] => []
         | shard :: w' => offsets (ost + Z.of_nat (length shard)) w'
         end.

End Expected.

(** ** Sample inputs for the examples *)

Module Samples.
Import Etcd Etcdutil Meritop.

(** A store that holds the health record of task 7 of job "job". *)
Definition healthStore : store :=
  {| kv := {[ HealthyPath "job" 7 := "health" ]}; index := 41 |}.

Definition healthRead : Response :=
  {| Action := "get";
     Node := {| Key := HealthyPath "job" 7; Value := "health" |};
     EtcdIndex := 41 |}.

(** A heartbeat re-write, then the expiry of the record. *)
Definition setThenExpire : list reply :=
  [Ok {| Action := "set";
         Node := {| Key := HealthyPath "job" 7; Value := "health" |};
         EtcdIndex := 45 |};
   Ok {| Action := "expire";
         Node := {| Key := HealthyPath "job" 7; Value := "" |};
         EtcdIndex := 50 |}].

Definition emptyStore : store := {| kv := ∅; index := 4 |}.

(** A task that answers with one byte telling which method served. *)
Definition markTask : Task :=
  {| ServeAsParent := λ _ _, [Byte.x50];
     ServeAsChild := λ _ _, [Byte.x43] |}.

(** Every task has parent 5 and children 5 and 9, at every epoch. *)
Definition overlapTopology : Topology :=
  {| observer := 0; parentsOf := λ _ _, [5]; childrenOf := λ _ _, [5; 9] |}.

(** No neighbour at epoch 0; parent 7 from epoch 1 on. *)
Definition lateParentTopology : Topology :=
  {| observer := 0;
     parentsOf := λ _ epoch, if bool_decide (epoch = 0) then [] else [7];
     childrenOf := λ _ _, [] |}.

(** Parent 5 and child 9 at every epoch. *)
Definition chainTopology : Topology :=
  {| observer := 0; parentsOf := λ _ _, [5]; childrenOf := λ _ _, [9] |}.

(** Task 3 of job "job" before [start], on each of the topologies. *)
Definition overlapProc : proc := newProc "job" markTask overlapTopology 3.
Definition lateParentProc : proc := newProc "job" markTask lateParentTopology 3.
Definition chainProc : proc := newProc "job" markTask chainTopology 3.

(** Task 7 of the same job, the late parent of task 3. *)
Definition lateParent : proc := newProc "job" markTask lateParentTopology 7.

(** Tasks 5 and 9 of the same job, the neighbours of task 3. *)
Definition parentProc : proc := newProc "job" markTask chainTopology 5.
Definition childProc : proc := newProc "job" markTask chainTopology 9.

(** Two heartbeats answered by a tick, a third answered by [stop]. *)
Definition threeBeats : list beat := [SetThenTick; SetThenTick; SetThenStop].

(** Three shards of two, zero and one row; a row is a number here. *)
Definition shards : list (list nat) := [[10; 11]%nat; []; [12]%nat].

(** A line of tasks: the parent of a task is the next one, its child the
    one before. *)
Definition lineTopology : Topology :=
  {| observer := 0;
     parentsOf := λ me _, [me + 1];
     childrenOf := λ me _, [me - 1] |}.

(** The framework of a task of the line, after [start]. *)
Definition lineFramework (id : Z) : framework :=
  fw (Expected.started (newProc "job" markTask lineTopology id)).

Definition addresses : gmap Z string :=
  {[ 3 := "10.0.0.3:8000"; 4 := "10.0.0.4:8000"; 7 := "10.0.0.7:8000" ]}.

(** What [strconv.ParseUint] gives on the two literals the examples send. *)
Definition parseSmall (s : string) : option Z :=
  if bool_decide (s = "3") then Some 3
  else if bool_decide (s = "4") then Some 4
  else None.

(** The first watch of task 3 on the chain: its parent 5. *)
Definition parentWatch : watcher :=
  {| watchPath := "/childMeta/job/5"; stop_ := Chan 0;
     taskCallback := ParentMetaReady; neighbor := 5 |}.

End Samples.

(** * Properties *)

(** ** Machine arithmetic *)

Lemma uint64_add_1_small (a : Z) :
  0 ≤ a < uint64_modulus - 1 → uint64_add a 1 = a + 1.
Proof.
  unfold uint64_add, uint64_modulus.
  change (2 ^ 64) with 18446744073709551616.
  intros Ha. apply Z.mod_small. lia.
Qed.

Lemma uint64_add_1_neq (a : Z) : uint64_add a 1 ≠ a.
Proof.
  unfold uint64_add, uint64_modulus.
  change (2 ^ 64) with 18446744073709551616. intros Heq.
  pose proof (Z.mod_pos_bound (a + 1) 18446744073709551616 eq_refl) as Hb.
  rewrite Heq in Hb.
  destruct (Z.eq_dec a 18446744073709551615) as [-> | Hne].
  - vm_compute in Heq. discriminate.
  - rewrite Z.mod_small in Heq; lia.
Qed.

(** ** The heartbeat TTL *)

Section HeartbeatTTL.
Import Etcdutil.

(** For a positive interval the TTL is 0 below one second and 1 from one
    second on: the minimum with 1 caps it. *)
Lemma computeTTL_positive (interval : Z) :
  0 < interval →
  computeTTL interval = Some (if bool_decide (Second ≤ interval) then 1 else 0).
Proof.
  intros Hpos. unfold computeTTL.
  assert (Hmin : Z.min (5 * (interval ÷ Second)) 1 =
                 if bool_decide (Second ≤ interval) then 1 else 0).
  { unfold Second. case_bool_decide as Hge.
    - assert (Hq : 1 ≤ interval ÷ 1000000000).
      { rewrite Z.quot_div_nonneg by lia.
        apply Z.div_le_lower_bound; lia. }
      lia.
    - rewrite Z.quot_small by lia. lia. }
  rewrite Hmin. by destruct (bool_decide (Second ≤ interval)).
Qed.

(** The TTL, counted in seconds, never exceeds one second, whatever the
    interval. *)
Lemma computeTTL_at_most_one (interval ttl : Z) :
  computeTTL interval = Some ttl → 0 ≤ ttl ≤ 1.
Proof.
  unfold computeTTL, uint64_of_float64. case_bool_decide; [|done].
  intros [= <-]. lia.
Qed.

(** C1, as the code has it: at a heartbeat interval of two seconds
    [computeTTL] yields a TTL of one second, which is less than the
    interval (a TTL of five times the interval would be ten); the claimed
    bound [TTL >= interval] does not hold there. *)
Theorem computeTTL_two_seconds :
  computeTTL (2 * Second) = Some 1 ∧ 1 * Second < 2 * Second.
Proof.
  split; [apply (computeTTL_positive (2 * Second)) | ]; vm_compute; done.
Qed.

End HeartbeatTTL.

(** ** Failure detection *)

Section FailureDetection.
Import Etcd Etcdutil.

Lemma confirmsFailure_spec (resp : Response) :
  confirmsFailure resp = true ↔
  Action resp = "delete" ∨ Action resp = "expire".
Proof.
  unfold confirmsFailure.
  rewrite orb_true_iff, !bool_decide_eq_true. done.
Qed.

Lemma watchLoop_confirmed taskID (pre : list Response) :
  ∀ w ev post,
    Forall (λ r, confirmsFailure r = false) pre →
    confirmsFailure ev = true →
    watchLoop taskID w ((Ok <$> pre) ++ Ok ev :: post) =
      {| result := Returned taskID None;
         watchCalls := w :: (nextWaitIndex <$> pre) |}.
Proof.
  induction pre as [|r pre IH]; intros w ev post Hpre Hev; simpl.
  - by rewrite Hev.
  - inversion Hpre as [|? ? Hr Hpre']; subst.
    rewrite Hr, (IH _ ev post Hpre' Hev). done.
Qed.

Lemma watchLoop_watch_error taskID (pre : list Response) :
  ∀ w e post,
    Forall (λ r, confirmsFailure r = false) pre →
    watchLoop taskID w ((Ok <$> pre) ++ Err e :: post) =
      {| result := Returned 0 (Some e);
         watchCalls := w :: (nextWaitIndex <$> pre) |}.
Proof.
  induction pre as [|r pre IH]; intros w e post Hpre; simpl.
  - done.
  - inversion Hpre as [|? ? Hr Hpre']; subst.
    rewrite Hr, (IH _ e post Hpre'). done.
Qed.

Lemma watchLoop_waiting taskID (pre : list Response) :
  ∀ w,
    Forall (λ r, confirmsFailure r = false) pre →
    watchLoop taskID w (Ok <$> pre) =
      {| result := Blocked; watchCalls := w :: (nextWaitIndex <$> pre) |}.
Proof.
  induction pre as [|r pre IH]; intros w Hpre; simpl.
  - done.
  - inversion Hpre as [|? ? Hr Hpre']; subst.
    rewrite Hr, (IH _ Hpre'). done.
Qed.

(** Every sequence of watch replies is a run of events that do not
    confirm a failure, followed by nothing, by a confirming event, or by
    an error. *)
Lemma replies_shape (replies : list reply) :
  ∃ pre : list Response,
    Forall (λ r, confirmsFailure r = false) pre ∧
    (replies = (Ok <$> pre) ∨
     (∃ ev post, confirmsFailure ev = true ∧
                 replies = (Ok <$> pre) ++ Ok ev :: post) ∨
     (∃ e post, replies = (Ok <$> pre) ++ Err e :: post)).
Proof.
  induction replies as [|[resp|e] replies (pre & Hpre & IH)].
  - exists []. split; [constructor | by left].
  - destruct (confirmsFailure resp) eqn:Hc.
    + exists []. split; [constructor |]. right; left. by exists resp, replies.
    + exists (resp :: pre). split; [by constructor |].
      destruct IH as [-> | [(ev & post & Hev & ->) | (e & post & ->)]].
      * by left.
      * right; left. by exists ev, post.
      * right; right. by exists e, post.
  - exists []. split; [constructor |]. right; right. by exists e, replies.
Qed.

Lemma confirmsFailure_false (resp : Response) :
  confirmsFailure resp = false ↔
  Action resp ≠ "delete" ∧ Action resp ≠ "expire".
Proof.
  unfold confirmsFailure.
  rewrite orb_false_iff, !bool_decide_eq_false. done.
Qed.

(** C3: after a successful initial read, whatever the watch replies are,
    they start with a run [pre] of events whose action is neither "delete"
    nor "expire", followed by nothing, by an event whose action is
    "delete" or "expire", or by a watch error. The watches issued are then
    exactly one after the initial read and one after each event of [pre]:
    the watch that follows a response starts from the index of that
    response plus one (modulo [2^64]), which is never that index again.
    If the replies end with [pre], the call is still waiting in its last
    watch; at the delete or expire event it returns the task with no
    error; at the watch error it returns that error, without another
    watch. *)
Theorem DetectFailure_watch_loop (c : client) (replies : list reply)
    (name : string) (taskID : Z) (r0 : Response) :
  Get c (HealthyPath name taskID) = Ok r0 →
  ∃ pre : list Response,
    Forall (λ r, Action r ≠ "delete" ∧ Action r ≠ "expire") pre ∧
    watchCalls (DetectFailure c replies name taskID) =
      (λ r, (EtcdIndex r + 1) mod 2 ^ 64) <$> (r0 :: pre) ∧
    Forall2 (λ r w, w ≠ EtcdIndex r ∧
                    (0 ≤ EtcdIndex r < 2 ^ 64 - 1 → w = EtcdIndex r + 1))
            (r0 :: pre) (watchCalls (DetectFailure c replies name taskID)) ∧
    ((replies = (Ok <$> pre) ∧
      result (DetectFailure c replies name taskID) = Blocked) ∨
     (∃ ev post,
        (Action ev = "delete" ∨ Action ev = "expire") ∧
        replies = (Ok <$> pre) ++ Ok ev :: post ∧
        result (DetectFailure c replies name taskID) = Returned taskID None) ∨
     (∃ e post,
        replies = (Ok <$> pre) ++ Err e :: post ∧
        result (DetectFailure c replies name taskID) = Returned 0 (Some e))).
Proof.
  intros Hget. unfold DetectFailure. rewrite Hget.
  destruct (replies_shape replies) as (pre & Hpre & Hshape).
  exists pre.
  assert (Hactions : Forall (λ r, Action r ≠ "delete" ∧ Action r ≠ "expire") pre).
  { eapply Forall_impl; [exact Hpre |]. intros r Hr.
    by apply confirmsFailure_false. }
  assert (Hidx : Forall2 (λ r w, w ≠ EtcdIndex r ∧
                    (0 ≤ EtcdIndex r < 2 ^ 64 - 1 → w = EtcdIndex r + 1))
            (r0 :: pre) (nextWaitIndex <$> (r0 :: pre))).
  { apply Forall2_fmap_r, Forall_Forall2_diag, Forall_forall. intros r _. split.
    - apply uint64_add_1_neq.
    - apply uint64_add_1_small. }
  split; [exact Hactions |].
  destruct Hshape as [-> | [(ev & post & Hev & ->) | (e & post & ->)]].
  - rewrite watchLoop_waiting by done. split_and!; [done | done |]. by left.
  - rewrite watchLoop_confirmed by done. split_and!; [done | done |].
    right; left. exists ev, post. split_and!; [| done | done].
    by apply confirmsFailure_spec.
  - rewrite watchLoop_watch_error by done. split_and!; [done | done |].
    right; right. by exists e, post.
Qed.

Lemma DetectFailure_watch_loop_witness :
  Get (Connected Samples.healthStore) (HealthyPath "job" 7) =
    Ok Samples.healthRead ∧
  result (DetectFailure (Connected Samples.healthStore)
            Samples.setThenExpire "job" 7) = Returned 7 None ∧
  watchCalls (DetectFailure (Connected Samples.healthStore)
                Samples.setThenExpire "job" 7) = [42; 46].
Proof.
  assert (Hget : Get (Connected Samples.healthStore) (HealthyPath "job" 7) =
                 Ok Samples.healthRead) by (vm_compute; reflexivity).
  split; [exact Hget |].
  destruct (DetectFailure_watch_loop (Connected Samples.healthStore)
              Samples.setThenExpire "job" 7 Samples.healthRead Hget)
    as (pre & Hpre & Hcalls & _ & Hcases).
  rewrite Hcalls. clear Hcalls.
  destruct Hcases as [[Hall _] | [(ev & post & Hev & Hsplit & Hres) | (e & post & Hsplit & _)]].
  - exfalso. destruct pre as [|a [|b [|? ?]]]; try discriminate Hall.
    injection Hall as _ Hb.
    apply Forall_cons in Hpre as (_ & Hpre).
    apply Forall_cons in Hpre as ((_ & Hexp) & _).
    apply Hexp. by rewrite <- Hb.
  - rewrite Hres. split; [reflexivity |].
    destruct pre as [|a [|b pre]].
    + exfalso. injection Hsplit as Hev' _. rewrite <- Hev' in Hev.
      by destruct Hev.
    + injection Hsplit as Ha _. rewrite <- Ha. reflexivity.
    + exfalso. injection Hsplit as _ Hb Hrest.
      apply Forall_cons in Hpre as (_ & Hpre).
      apply Forall_cons in Hpre as ((_ & Hexp) & _).
      apply Hexp. by rewrite <- Hb.
  - exfalso. destruct pre as [|a [|b [|? ?]]]; discriminate Hsplit.
Defined.

Example DetectFailure_set_then_expire :
  DetectFailure (Connected Samples.healthStore) Samples.setThenExpire "job" 7 =
  {| result := Returned 7 None; watchCalls := [42; 46] |}.
Proof. vm_compute. reflexivity. Qed.

Example DetectFailure_stopped :
  DetectFailure (Connected Samples.healthStore)
    [Err ErrWatchStoppedByUser] "job" 7 =
  {| result := Returned 0 (Some ErrWatchStoppedByUser); watchCalls := [42] |}.
Proof. vm_compute. reflexivity. Qed.

(** C4: when the store holds no health record for the task, the initial
    read fails and [DetectFailure] returns the task at once, with no
    error and without a single watch: it does not enter the loop and
    cannot block. *)
Theorem DetectFailure_absent_record (s : store) (replies : list reply)
    (name : string) (taskID : Z) :
  kv s !! HealthyPath name taskID = None →
  DetectFailure (Connected s) replies name taskID =
    {| result := Returned taskID None; watchCalls := [] |}.
Proof.
  intros Habsent. unfold DetectFailure, Get. by rewrite Habsent.
Qed.

Lemma DetectFailure_absent_record_witness :
  kv Samples.emptyStore !! HealthyPath "job" 7 = None ∧
  DetectFailure (Connected Samples.emptyStore) Samples.setThenExpire "job" 7 =
    {| result := Returned 7 None; watchCalls := [] |}.
Proof.
  assert (Habsent : kv Samples.emptyStore !! HealthyPath "job" 7 = None)
    by reflexivity.
  split; [exact Habsent |].
  exact (DetectFailure_absent_record Samples.emptyStore
           Samples.setThenExpire "job" 7 Habsent).
Defined.

(** C10: whatever error the initial read returns (the key is missing, the
    store cannot be reached, the client is closed), [DetectFailure]
    returns the task with a nil error and issues no watch; the value
    returned does not depend on the error. *)
Theorem DetectFailure_any_read_error (c : client) (replies : list reply)
    (name : string) (taskID : Z) (e : error) :
  Get c (HealthyPath name taskID) = Err e →
  DetectFailure c replies name taskID =
    {| result := Returned taskID None; watchCalls := [] |}.
Proof.
  intros Hget. unfold DetectFailure. by rewrite Hget.
Qed.

Lemma DetectFailure_any_read_error_witness :
  Get (Unreachable (ClientError "connection refused")) (HealthyPath "job" 7) =
    Err (ClientError "connection refused") ∧
  DetectFailure (Unreachable (ClientError "connection refused"))
    Samples.setThenExpire "job" 7 =
    {| result := Returned 7 None; watchCalls := [] |}.
Proof.
  split; [reflexivity |].
  exact (DetectFailure_any_read_error
           (Unreachable (ClientError "connection refused"))
           Samples.setThenExpire "job" 7
           (ClientError "connection refused") eq_refl).
Defined.

End FailureDetection.

(** ** Role classification and the data request handler *)

Section RoleClassification.
Import Etcd Meritop.

Lemma occurs_spec (taskID : Z) (ids : list Z) :
  occurs taskID ids = true ↔ taskID ∈ ids.
Proof.
  induction ids as [|id ids IH]; simpl.
  - rewrite elem_of_nil. split; [discriminate | tauto].
  - rewrite elem_of_cons. case_bool_decide as Heq.
    + split; [by left | done].
    + rewrite IH. split; [by right | by intros [? | ?]].
Qed.

Lemma occurs_false (taskID : Z) (ids : list Z) :
  occurs taskID ids = false ↔ taskID ∉ ids.
Proof.
  rewrite <- occurs_spec. by destruct (occurs taskID ids).
Qed.

(** The parent list is scanned first. *)
Lemma parentOrChild_parent (f : framework) (taskID : Z) :
  taskID ∈ GetParents (topology f) (epoch f) →
  parentOrChild f taskID = parentRole.
Proof.
  intros Hin. unfold parentOrChild.
  by rewrite (proj2 (occurs_spec _ _) Hin).
Qed.

(** C9: at every epoch and for every task, [parentOrChild] answers
    parent exactly when the task is among the parents, child exactly when
    it is among the children and not among the parents, and none exactly
    when it is in neither list; a task in both lists is a parent. *)
Theorem parentOrChild_spec (f : framework) (taskID : Z) :
  let parents := GetParents (topology f) (epoch f) in
  let children := GetChildren (topology f) (epoch f) in
  (parentOrChild f taskID = parentRole ↔ taskID ∈ parents) ∧
  (parentOrChild f taskID = childRole ↔
     (taskID ∉ parents) ∧ taskID ∈ children) ∧
  (parentOrChild f taskID = noneRole ↔
     (taskID ∉ parents) ∧ (taskID ∉ children)) ∧
  (taskID ∈ parents → taskID ∈ children →
     parentOrChild f taskID = parentRole).
Proof.
  intros parents children. unfold parentOrChild. fold parents children.
  rewrite <- !occurs_false, <- !occurs_spec.
  destruct (occurs taskID parents), (occurs taskID children);
    repeat split; intros; try done; by destruct_and?.
Qed.

Lemma parentOrChild_spec_witness :
  5 ∈ GetParents (topology (fw (Expected.started Samples.overlapProc)))
        (epoch (fw (Expected.started Samples.overlapProc))) ∧
  5 ∈ GetChildren (topology (fw (Expected.started Samples.overlapProc)))
        (epoch (fw (Expected.started Samples.overlapProc))) ∧
  parentOrChild (fw (Expected.started Samples.overlapProc)) 5 = parentRole.
Proof.
  assert (Hp : 5 ∈ GetParents
                 (topology (fw (Expected.started Samples.overlapProc)))
                 (epoch (fw (Expected.started Samples.overlapProc))))
    by (vm_compute; left).
  assert (Hc : 5 ∈ GetChildren
                 (topology (fw (Expected.started Samples.overlapProc)))
                 (epoch (fw (Expected.started Samples.overlapProc))))
    by (vm_compute; left).
  split_and!; [exact Hp | exact Hc |].
  exact (proj2 (proj2 (proj2
           (parentOrChild_spec (fw (Expected.started Samples.overlapProc)) 5)))
           Hp Hc).
Defined.

(** C7, as the code has it: a request whose requester parses is served
    by [ServeAsChild] when the requester is among the parents at the
    current epoch, by [ServeAsParent] when it is among the children and
    not among the parents, and ends in a panic, with nothing served, when
    it is in neither list. *)
Theorem newDataReqHandler_dispatch (ParseUint : string → option Z)
    (f : framework) (query : string → string) :
  newDataReqHandler ParseUint f query =
    match ParseUint (query DataRequestTaskID) with
    | None =>
        Fatal ("taskID in query couldn't be parsed: "
               +:+ query DataRequestTaskID)
    | Some fromID =>
        let req := query DataRequestReq in
        if decide (fromID ∈ GetParents (topology f) (epoch f))
        then Respond (CallServeAsChild fromID req)
                     (ServeAsChild (task f) fromID req)
        else if decide (fromID ∈ GetChildren (topology f) (epoch f))
        then Respond (CallServeAsParent fromID req)
                     (ServeAsParent (task f) fromID req)
        else HandlerPanic "unimplemented"
    end.
Proof.
  unfold newDataReqHandler. destruct (ParseUint _) as [fromID|]; [|done].
  simpl. unfold serveDataReq, parentOrChild.
  destruct (occurs fromID (GetParents _ _)) eqn:Hp.
  - apply occurs_spec in Hp. by rewrite decide_True.
  - apply occurs_false in Hp. rewrite decide_False by done.
    destruct (occurs fromID (GetChildren _ _)) eqn:Hc.
    + apply occurs_spec in Hc. by rewrite decide_True.
    + apply occurs_false in Hc. by rewrite decide_False.
Qed.

(** C7 fails as stated: task 5 is among the children of task 3, and its
    request is served by [ServeAsChild], not by [ServeAsParent], because
    it is among the parents too. *)
Lemma child_request_served_as_child :
  start Samples.overlapProc =
    Done (tt, Expected.started Samples.overlapProc) ∧
  5 ∈ GetChildren (topology (fw (Expected.started Samples.overlapProc)))
        (epoch (fw (Expected.started Samples.overlapProc))) ∧
  serveDataReq (fw (Expected.started Samples.overlapProc)) 5 "shardIndex=3" =
    Respond (CallServeAsChild 5 "shardIndex=3") [Byte.x43] ∧
  serveDataReq (fw (Expected.started Samples.overlapProc)) 5 "shardIndex=3" ≠
    Respond (CallServeAsParent 5 "shardIndex=3")
      (ServeAsParent (task (fw (Expected.started Samples.overlapProc)))
         5 "shardIndex=3").
Proof.
  split_and!.
  - vm_compute. reflexivity.
  - vm_compute. by left.
  - reflexivity.
  - discriminate.
Qed.

End RoleClassification.

(** ** The receiving loop of a neighbour watch *)

Section Receive.
Import Etcd Meritop.

(** C6: the calls made by the receiving loop are, in order, one call of
    the callback per received event whose action is "set", carrying the
    value of its node; an event of any other action, wherever it arrives,
    adds no call. *)
Theorem receiveLoop_set_only (cb : metaCallback) (taskID : Z) :
  (∀ received,
     receiveLoop cb taskID received =
     (λ resp, invoke cb taskID (Value (Node resp))) <$>
       filter (λ resp, Action resp = "set") received) ∧
  (∀ before resp after,
     receiveLoop cb taskID (before ++ resp :: after) =
     receiveLoop cb taskID before ++
     (if decide (Action resp = "set")
      then [invoke cb taskID (Value (Node resp))] else []) ++
     receiveLoop cb taskID after).
Proof.
  assert (Hfilter : ∀ received,
     receiveLoop cb taskID received =
     (λ resp, invoke cb taskID (Value (Node resp))) <$>
       filter (λ resp, Action resp = "set") received).
  { induction received as [|resp received IH]; [done |].
    simpl. rewrite filter_cons. case_bool_decide as Hne.
    - by rewrite decide_False.
    - rewrite decide_True by (by destruct (decide (Action resp = "set"))).
      by rewrite fmap_cons, IH. }
  split; [done |].
  intros before resp after.
  rewrite !Hfilter, filter_app, filter_cons, fmap_app.
  by destruct (decide (Action resp = "set")).
Qed.

End Receive.

(** ** Start, the neighbour watches and shutdown *)

Section Lifecycle.
Import Etcd Meritop Expected.

Lemma bind_run {A B} (m : M A) (k : A → M B) (p : proc) :
  (m ≫= k) p =
  match m p with
  | Done (a, p') => k a p'
  | Panic msg => Panic msg
  end.
Proof. reflexivity. Qed.

Ltac run := repeat (rewrite bind_run; simpl).

(** [watchAll] when [who] is a parent or child role: [done] holds the
    channels of the iterations already made. *)
Lemma watchAllFrom_spec who path cb :
  (∀ f id, watchTarget who f id = Some (path (name f) id, cb)) →
  ∀ ids done p,
    watchAllFrom who (length done) ids
      (done ++ replicate (length ids) nilChan) p =
    Done (done ++ freshChans (length (chans p)) (length ids),
          {| fw := fw p;
             chans := chans p ++ replicate (length ids) false;
             etcdReqs := etcdReqs p;
             watchers := watchers p ++
               neighborWatches (path (name (fw p))) cb (length (chans p)) ids;
             servers := servers p;
             taskCalls := taskCalls p |}).
Proof.
  intros Htarget. induction ids as [|id ids IH]; intros done p.
  - simpl. rewrite !app_nil_r. by destruct p.
  - simpl. rewrite bind_run; simpl. rewrite bind_run; simpl.
    rewrite Htarget. rewrite bind_run; simpl.
    rewrite insert_app_r_alt by lia. rewrite Nat.sub_diag. simpl.
    rewrite (cons_middle (Chan _) done), app_assoc.
    replace (S (length done))
      with (length (done ++ [Chan (length (chans p))]))
      by (rewrite length_app; simpl; lia).
    rewrite IH. simpl. rewrite length_app. simpl. rewrite Nat.add_1_r.
    rewrite <- !app_assoc. simpl. done.
Qed.

Lemma watchAll_spec who path cb :
  (∀ f id, watchTarget who f id = Some (path (name f) id, cb)) →
  ∀ ids p,
    watchAll who ids p =
    Done (freshChans (length (chans p)) (length ids),
          {| fw := fw p;
             chans := chans p ++ replicate (length ids) false;
             etcdReqs := etcdReqs p;
             watchers := watchers p ++
               neighborWatches (path (name (fw p))) cb (length (chans p)) ids;
             servers := servers p;
             taskCalls := taskCalls p |}).
Proof.
  intros Htarget ids p. unfold watchAll.
  apply (watchAllFrom_spec who path cb Htarget ids [] p).
Qed.

(** [watchAll] panics on the first identifier when [who] is no role. *)
Lemma watchAll_noneRole (id : Z) (ids : list Z) (p : proc) :
  watchAll noneRole (id :: ids) p = Panic "unimplemented".
Proof. reflexivity. Qed.

(** [start] never panics; [started] is the process it leaves. *)
Lemma start_spec (p : proc) : start p = Done (tt, started p).
Proof.
  unfold start, started. run.
  rewrite (watchAll_spec parentRole MakeChildMetaPath ParentMetaReady) by done.
  rewrite bind_run.
  rewrite (watchAll_spec childRole MakeParentMetaPath ChildMetaReady) by done.
  run. rewrite length_app, length_replicate.
  unfold GetParents, GetChildren, call. simpl.
  rewrite <- !app_assoc. simpl. done.
Qed.

Lemma neighborWatches_elem path cb (ids : list Z) :
  ∀ base id, id ∈ ids →
    ∃ k, (k < length ids)%nat ∧
         {| watchPath := path id; stop_ := Chan (base + k);
            taskCallback := cb; neighbor := id |}
         ∈ neighborWatches path cb base ids.
Proof.
  induction ids as [|id' ids IH]; intros base id Hin.
  - by apply elem_of_nil in Hin.
  - apply elem_of_cons in Hin as [-> | Hin].
    + exists 0%nat. simpl. split; [lia |]. rewrite Nat.add_0_r. by left.
    + destruct (IH (S base) id Hin) as (k & Hk & Hw).
      exists (S k). simpl. split; [lia |].
      rewrite Nat.add_succ_r. by right.
Qed.

Lemma freshChans_app base a b :
  freshChans base (a + b) = freshChans base a ++ freshChans (base + a) b.
Proof.
  revert base. induction a as [|a IH]; intros base; simpl.
  - by rewrite Nat.add_0_r.
  - by rewrite IH, Nat.add_succ_r.
Qed.

Lemma length_freshChans base n : length (freshChans base n) = n.
Proof.
  revert base. induction n as [|n IH]; intros base; simpl;
    [done | by rewrite IH].
Qed.

(** Closing [n] open channels that sit next to each other in the heap. *)
Lemma closeAll_fresh (n : nat) :
  ∀ (pre post : list bool) (p : proc),
    chans p = pre ++ replicate n false ++ post →
    closeAll (freshChans (length pre) n) p =
    Done (tt, with_chans (pre ++ replicate n true ++ post) p).
Proof.
  induction n as [|n IH]; intros pre post p Hp; simpl in *.
  - unfold with_chans. rewrite <- Hp. by destruct p.
  - rewrite bind_run. unfold closeChan. rewrite Hp.
    rewrite lookup_app_r by lia. rewrite Nat.sub_diag. simpl.
    rewrite insert_app_r_alt by lia. rewrite Nat.sub_diag. simpl.
    replace (S (length pre)) with (length (pre ++ [true]))
      by (rewrite length_app; simpl; lia).
    rewrite (IH (pre ++ [true]) post).
    + unfold with_chans. simpl. by rewrite <- app_assoc.
    + simpl. by rewrite <- app_assoc.
Qed.

(** [stop], the loop that [Exit] does not run: after [start] it closes
    every handle of [f.stops], each once. *)
Lemma stop_after_start (p : proc) :
  stop (started p) =
    Done (tt, with_chans
                (chans p ++ replicate (length (stops (fw (started p)))) true)
                (started p)).
Proof.
  unfold stop. rewrite bind_run. simpl.
  rewrite <- freshChans_app, length_freshChans.
  rewrite (closeAll_fresh _ (chans p) []).
  - by rewrite app_nil_r.
  - simpl. by rewrite app_nil_r, <- app_assoc, replicate_add.
Qed.

(** A second [stop] panics as soon as there is a handle. *)
Lemma stop_twice_panics (p q : proc) :
  stops (fw (started p)) ≠ [] →
  stop (started p) = Done (tt, q) →
  stop q = Panic "close of closed channel".
Proof.
  rewrite stop_after_start. intros Hne [= <-].
  unfold stop. rewrite bind_run. simpl in *.
  rewrite <- freshChans_app, length_freshChans in *.
  destruct (length _ + length _)%nat as [|n] eqn:Hn; [done |].
  simpl. rewrite bind_run. unfold closeChan. simpl.
  rewrite lookup_app_r by lia. by rewrite Nat.sub_diag.
Qed.

(** The watches that [start] sets up are running. *)
Lemma running_fresh (p q : proc) (w : watcher) (k : nat) :
  chans q = chans (started p) →
  stop_ w = Chan (length (chans p) + k) →
  (k < length (stops (fw (started p))))%nat →
  running q w = true.
Proof.
  intros Hq Hstop Hk. unfold running. rewrite Hstop, Hq.
  apply bool_decide_eq_true.
  simpl in *. rewrite length_app, !length_freshChans in Hk.
  rewrite <- app_assoc, <- replicate_add.
  rewrite lookup_app_r by lia.
  apply lookup_replicate. split; [done | lia].
Qed.

(** A running watcher hands the value of a "set" on its path to its
    callback. *)
Lemma reaction_to_set (q : proc) (w : watcher) (s : store)
    (meta : string) (ttl : Z) :
  running q w = true →
  reaction q w (serve s (ReqSet (watchPath w) meta ttl)).2 =
    [invoke (taskCallback w) (neighbor w) meta].
Proof.
  intros Hrun. unfold reaction. rewrite Hrun. simpl.
  rewrite filter_cons. unfold notifies. simpl.
  rewrite bool_decide_eq_true_2 by done.
  rewrite decide_True by done. done.
Qed.

(** C2, as the code has it: [Exit] returns at once and leaves the
    process as it was. For task 3 with parent 5 and child 9, [start]
    creates the handles 0 and 1; after [Exit] both are still open, while
    [stop] would close them. *)
Theorem Exit_closes_no_handle :
  (∀ p, Exit p = Done (tt, p)) ∧
  start Samples.chainProc = Done (tt, started Samples.chainProc) ∧
  stops (fw (started Samples.chainProc)) = [Chan 0; Chan 1] ∧
  Exit (started Samples.chainProc) = Done (tt, started Samples.chainProc) ∧
  chans (started Samples.chainProc) = [false; false] ∧
  stop (started Samples.chainProc) =
    Done (tt, with_chans [true; true] (started Samples.chainProc)).
Proof.
  split_and!.
  - done.
  - apply start_spec.
  - reflexivity.
  - reflexivity.
  - reflexivity.
  - rewrite stop_after_start. reflexivity.
Qed.

(** C8 fails as stated: task 5 is both a parent and a child of task 3 at
    epoch 0, and [start] completes all the same. *)
Lemma start_accepts_overlap :
  5 ∈ GetParents (SetTaskID Samples.overlapTopology 3) 0 ∧
  5 ∈ GetChildren (SetTaskID Samples.overlapTopology 3) 0 ∧
  start Samples.overlapProc = Done (tt, started Samples.overlapProc) ∧
  length (watchers (started Samples.overlapProc)) = 3%nat.
Proof.
  split_and!.
  - vm_compute. by left.
  - vm_compute. by left.
  - apply start_spec.
  - reflexivity.
Qed.

(** C8, as the code has it: [start] has no error result and completes on
    every topology. A task that is both a parent and a child at epoch 0
    gets a watch in each direction, and is classified as a parent. *)
Theorem start_never_rejects (p : proc) :
  ∃ q, start p = Done (tt, q) ∧
    epoch (fw q) = 0 ∧
    length (stops (fw q)) =
      (length (GetParents (topology (fw q)) 0) +
       length (GetChildren (topology (fw q)) 0))%nat ∧
    ∀ id,
      id ∈ GetParents (topology (fw q)) 0 →
      id ∈ GetChildren (topology (fw q)) 0 →
      (∃ w, w ∈ watchers q ∧ neighbor w = id ∧
            taskCallback w = ParentMetaReady ∧
            watchPath w = MakeChildMetaPath (name (fw q)) id) ∧
      (∃ w, w ∈ watchers q ∧ neighbor w = id ∧
            taskCallback w = ChildMetaReady ∧
            watchPath w = MakeParentMetaPath (name (fw q)) id) ∧
      parentOrChild (fw q) id = parentRole.
Proof.
  exists (started p). split; [apply start_spec |].
  split; [done |]. split.
  { simpl. by rewrite length_app, !length_freshChans. }
  intros id Hp Hc. simpl in Hp, Hc. split_and!.
  - destruct (neighborWatches_elem
                (MakeChildMetaPath (name (fw p))) ParentMetaReady _
                (length (chans p)) id Hp) as (k & _ & Hw).
    eexists. split;
      [simpl; apply elem_of_app; left; apply elem_of_app; right; exact Hw
      | done].
  - destruct (neighborWatches_elem
                (MakeParentMetaPath (name (fw p))) ChildMetaReady _
                (length (chans p) +
                 length (GetParents
                           (SetTaskID (topology (fw p)) (taskID (fw p))) 0))
                id Hc) as (k & _ & Hw).
    eexists. split; [simpl; apply elem_of_app; right; exact Hw | done].
  - by apply parentOrChild_parent.
Qed.

Lemma start_never_rejects_witness :
  ∃ q, start Samples.overlapProc = Done (tt, q) ∧
       parentOrChild (fw q) 5 = parentRole.
Proof.
  destruct (start_never_rejects Samples.overlapProc)
    as (q & Hstart & _ & _ & Hboth).
  exists q. split; [exact Hstart |].
  rewrite start_spec in Hstart. injection Hstart as <-.
  apply (Hboth 5); vm_compute; left.
Defined.

(** C5 fails as stated: task 3 has no neighbour at epoch 0 and parent 7
    from epoch 1 on. After [start] and [SetEpoch 1] task 7 is a parent in
    the current epoch, but task 3 watches nothing, so the path that task
    7 writes with [FlagChildMetaReady] is not watched. *)
Lemma later_parent_not_watched :
  ∃ q qA, (start ≫= λ _, SetEpoch 1) Samples.lateParentProc = Done (tt, q) ∧
    epoch (fw q) = 1 ∧
    7 ∈ GetParents (topology (fw q)) (epoch (fw q)) ∧
    FlagChildMetaReady "ready" Samples.lateParent = Done (tt, qA) ∧
    etcdReqs qA = [ReqSet "/childMeta/job/7" "ready" 0] ∧
    watchers q = [] ∧
    ¬ ∃ w, w ∈ watchers q ∧ watchPath w = "/childMeta/job/7".
Proof.
  eexists. eexists. split; [| split_and!].
  - rewrite bind_run, start_spec. reflexivity.
  - reflexivity.
  - vm_compute. by left.
  - reflexivity.
  - reflexivity.
  - reflexivity.
  - intros (w & Hw & _). by apply elem_of_nil in Hw.
Qed.

(** C5, as the code has it. Let task A and task B run under the same job
    name, and let B have called [start] and then [SetEpoch e] for any
    [e]. [FlagChildMetaReady meta] of A sends one set of A's child-meta
    path; if A is among the parents of B at epoch 0, the snapshot [start]
    takes and [SetEpoch] does not renew, B runs a watch on exactly that
    path, which answers the event of that set with
    [ParentMetaReady(A, meta)]. In the same way [FlagParentMetaReady]
    writes the path B watches when A is among its children at epoch 0,
    and the event brings [ChildMetaReady(A, meta)]. *)
Theorem readiness_round_trip (pA pB : proc) (meta : string) (s : store)
    (e : Z) :
  name (fw pA) = name (fw pB) →
  ∃ qB,
    (start ≫= λ _, SetEpoch e) pB = Done (tt, qB) ∧
    (∃ qA,
       FlagChildMetaReady meta pA = Done (tt, qA) ∧
       etcdReqs qA = etcdReqs pA ++
         [ReqSet (MakeChildMetaPath (name (fw pA)) (taskID (fw pA))) meta 0]) ∧
    (∃ qA,
       FlagParentMetaReady meta pA = Done (tt, qA) ∧
       etcdReqs qA = etcdReqs pA ++
         [ReqSet (MakeParentMetaPath (name (fw pA)) (taskID (fw pA))) meta 0]) ∧
    (taskID (fw pA) ∈
       GetParents (SetTaskID (topology (fw pB)) (taskID (fw pB))) 0 →
     ∃ w, w ∈ watchers qB ∧
       watchPath w = MakeChildMetaPath (name (fw pA)) (taskID (fw pA)) ∧
       reaction qB w
         (serve s (ReqSet (MakeChildMetaPath (name (fw pA)) (taskID (fw pA)))
                     meta 0)).2 =
         [CallParentMetaReady (taskID (fw pA)) meta]) ∧
    (taskID (fw pA) ∈
       GetChildren (SetTaskID (topology (fw pB)) (taskID (fw pB))) 0 →
     ∃ w, w ∈ watchers qB ∧
       watchPath w = MakeParentMetaPath (name (fw pA)) (taskID (fw pA)) ∧
       reaction qB w
         (serve s (ReqSet (MakeParentMetaPath (name (fw pA)) (taskID (fw pA)))
                     meta 0)).2 =
         [CallChildMetaReady (taskID (fw pA)) meta]).
Proof.
  intros Hname. eexists. split.
  { rewrite bind_run, start_spec. reflexivity. }
  split; [by eexists |]. split; [by eexists |].
  set (t := SetTaskID (topology (fw pB)) (taskID (fw pB))).
  split.
  - intros Hin.
    destruct (neighborWatches_elem
                (MakeChildMetaPath (name (fw pB))) ParentMetaReady _
                (length (chans pB)) _ Hin) as (k & Hk & Hw).
    eexists. split_and!.
    + simpl. apply elem_of_app. left. apply elem_of_app. right. exact Hw.
    + simpl. by rewrite Hname.
    + rewrite Hname.
      rewrite (reaction_to_set _
                 {| watchPath := MakeChildMetaPath (name (fw pB)) (taskID (fw pA));
                    stop_ := Chan (length (chans pB) + k);
                    taskCallback := ParentMetaReady;
                    neighbor := taskID (fw pA) |}); [done |].
      apply (running_fresh pB _ _ k); [done | done |].
      simpl. rewrite length_app, !length_freshChans.
      unfold GetParents, GetChildren, t in *. simpl in *. lia.
  - intros Hin.
    destruct (neighborWatches_elem
                (MakeParentMetaPath (name (fw pB))) ChildMetaReady _
                (length (chans pB) + length (GetParents t 0)) _ Hin)
      as (k & Hk & Hw).
    eexists. split_and!.
    + simpl. apply elem_of_app. right. exact Hw.
    + simpl. by rewrite Hname.
    + rewrite Hname.
      rewrite (reaction_to_set _
                 {| watchPath := MakeParentMetaPath (name (fw pB)) (taskID (fw pA));
                    stop_ := Chan (length (chans pB) + length (GetParents t 0) + k);
                    taskCallback := ChildMetaReady;
                    neighbor := taskID (fw pA) |}); [done |].
      apply (running_fresh pB _ _ (length (GetParents t 0) + k));
        [done | simpl; f_equal; unfold GetParents, t; simpl; lia |].
      simpl. rewrite length_app, !length_freshChans.
      unfold GetParents, GetChildren, t in *. simpl in *. lia.
Qed.

Lemma readiness_round_trip_witness :
  name (fw Samples.parentProc) = name (fw Samples.chainProc) ∧
  ∃ qB,
    (start ≫= λ _, SetEpoch 2) Samples.chainProc = Done (tt, qB) ∧
    ∃ w, w ∈ watchers qB ∧
      watchPath w = "/childMeta/job/5" ∧
      reaction qB w
        (serve Samples.emptyStore (ReqSet "/childMeta/job/5" "ready" 0)).2 =
        [CallParentMetaReady 5 "ready"].
Proof.
  split; [reflexivity |].
  destruct (readiness_round_trip Samples.parentProc Samples.chainProc
              "ready" Samples.emptyStore 2 eq_refl)
    as (qB & Hstart & _ & _ & Hparent & _).
  exists qB. split; [exact Hstart |].
  apply Hparent. vm_compute. left.
Defined.

End Lifecycle.

(** ** The heartbeat loop *)

Section HeartbeatLoop.
Import Etcd Etcdutil.

Lemma computeTTL_negative (interval : Z) :
  interval ≤ - Second → computeTTL interval = None.
Proof.
  intros Hneg. unfold computeTTL, uint64_of_float64, Second in *.
  assert (Hq : interval ÷ 1000000000 ≤ -1).
  { rewrite <- (Z.opp_involutive interval), Z.quot_opp_l by lia.
    assert (1 ≤ (- interval) ÷ 1000000000); [| lia].
    rewrite Z.quot_div_nonneg by lia. apply Z.div_le_lower_bound; lia. }
  rewrite bool_decide_eq_false_2; [done | lia].
Qed.

Lemma computeTTL_subsecond (interval : Z) :
  - Second < interval < Second → computeTTL interval = Some 0.
Proof.
  intros Hsmall. unfold computeTTL, uint64_of_float64, Second in *.
  assert (Hq : interval ÷ 1000000000 = 0) by (apply Z.quot_small_iff; lia).
  rewrite Hq. reflexivity.
Qed.

(** X1: [computeTTL] has three outcomes only. From one second on the TTL is
    1, whatever the interval; between minus one second and one second it is
    0; at minus one second or less the float is negative and its
    conversion to [uint64] is left to the implementation. *)
Theorem computeTTL_cases (interval : Z) :
  computeTTL interval =
    if bool_decide (interval ≤ - Second) then None
    else if bool_decide (interval < Second) then Some 0
    else Some 1.
Proof.
  case_bool_decide as Hneg; [by apply computeTTL_negative |].
  case_bool_decide as Hsub; [apply computeTTL_subsecond; lia |].
  rewrite computeTTL_positive by (unfold Second in *; lia).
  rewrite bool_decide_eq_true_2; [done | lia].
Qed.

Lemma runtimeTTL_defined (interval ttl : Z) :
  computeTTL interval = Some ttl → runtimeTTL interval = ttl.
Proof. intros Httl. unfold runtimeTTL. by rewrite Httl. Qed.

Lemma Heartbeat_ticks name taskID interval (ticks : nat) (rest : list beat) :
  Heartbeat (replicate ticks SetThenTick ++ rest) name taskID interval =
    {| hbEnd := hbEnd (Heartbeat rest name taskID interval);
       hbWrites :=
         replicate ticks
           (ReqSet (HealthyPath name taskID) "health" (runtimeTTL interval)) ++
         hbWrites (Heartbeat rest name taskID interval) |}.
Proof.
  induction ticks as [|ticks IH]; simpl.
  - by destruct (Heartbeat rest name taskID interval).
  - by rewrite IH.
Qed.

(** Every run of turns is a number of ticks followed by nothing, by a stop
    or by a failed write. *)
Lemma beats_shape (beats : list beat) :
  ∃ ticks : nat,
    beats = replicate ticks SetThenTick ∨
    (∃ rest, beats = replicate ticks SetThenTick ++ SetThenStop :: rest) ∨
    (∃ err rest, beats = replicate ticks SetThenTick ++ SetFails err :: rest).
Proof.
  induction beats as [|b beats (ticks & IH)].
  - exists 0%nat. by left.
  - destruct b as [err| |].
    + exists 0%nat. right; right. by exists err, beats.
    + exists (S ticks). simpl.
      destruct IH as [-> | [(rest & ->) | (err & rest & ->)]].
      * by left.
      * right; left. by exists rest.
      * right; right. by exists err, rest.
    + exists 0%nat. right; left. by exists beats.
Qed.

(** X2: when the TTL is defined, [Heartbeat] writes once per turn, always
    the same request. It goes on as long as every write succeeds and the
    timer fires first; it returns nil at the first turn where [stop] fires
    first, after the write of that turn; it returns the error of the first
    write that fails, without another write. *)
Theorem Heartbeat_outcome (beats : list beat) (name : string)
    (taskID interval ttl : Z) :
  computeTTL interval = Some ttl →
  ∃ ticks : nat,
    (beats = replicate ticks SetThenTick ∧
     Heartbeat beats name taskID interval =
       {| hbEnd := HbRunning;
          hbWrites :=
            replicate ticks (ReqSet (HealthyPath name taskID) "health" ttl) |}) ∨
    (∃ rest,
       beats = replicate ticks SetThenTick ++ SetThenStop :: rest ∧
       Heartbeat beats name taskID interval =
         {| hbEnd := HbReturned None;
            hbWrites :=
              replicate (S ticks)
                (ReqSet (HealthyPath name taskID) "health" ttl) |}) ∨
    (∃ err rest,
       beats = replicate ticks SetThenTick ++ SetFails err :: rest ∧
       Heartbeat beats name taskID interval =
         {| hbEnd := HbReturned (Some err);
            hbWrites :=
              replicate (S ticks)
                (ReqSet (HealthyPath name taskID) "health" ttl) |}).
Proof.
  intros Httl. apply runtimeTTL_defined in Httl.
  destruct (beats_shape beats) as (ticks & Hshape).
  exists ticks.
  destruct Hshape as [-> | [(rest & ->) | (err & rest & ->)]].
  - left. split; [done |].
    rewrite <- (app_nil_r (replicate ticks SetThenTick)).
    rewrite Heartbeat_ticks, Httl. simpl. by rewrite app_nil_r.
  - right; left. exists rest. split; [done |].
    rewrite replicate_S_end, Heartbeat_ticks. simpl. by rewrite Httl.
  - right; right. exists err, rest. split; [done |].
    rewrite replicate_S_end, Heartbeat_ticks. simpl. by rewrite Httl.
Qed.

Lemma Heartbeat_outcome_witness :
  computeTTL (2 * Second) = Some 1 ∧
  ∃ ticks : nat,
    (Samples.threeBeats = replicate ticks SetThenTick ∧
     Heartbeat Samples.threeBeats "job" 7 (2 * Second) =
       {| hbEnd := HbRunning;
          hbWrites :=
            replicate ticks (ReqSet (HealthyPath "job" 7) "health" 1) |}) ∨
    (∃ rest,
       Samples.threeBeats = replicate ticks SetThenTick ++ SetThenStop :: rest ∧
       Heartbeat Samples.threeBeats "job" 7 (2 * Second) =
         {| hbEnd := HbReturned None;
            hbWrites :=
              replicate (S ticks) (ReqSet (HealthyPath "job" 7) "health" 1) |}) ∨
    (∃ err rest,
       Samples.threeBeats = replicate ticks SetThenTick ++ SetFails err :: rest ∧
       Heartbeat Samples.threeBeats "job" 7 (2 * Second) =
         {| hbEnd := HbReturned (Some err);
            hbWrites :=
              replicate (S ticks) (ReqSet (HealthyPath "job" 7) "health" 1) |}).
Proof.
  assert (Httl : computeTTL (2 * Second) = Some 1) by reflexivity.
  split; [exact Httl |].
  exact (Heartbeat_outcome Samples.threeBeats "job" 7 (2 * Second) 1 Httl).
Defined.

(** X3: whatever the turns and the interval, the writes of [Heartbeat]
    are all the same request: a set of the health path of the task to the
    value "health", with one TTL. For an interval above minus one second,
    where [computeTTL] is defined, that TTL is the one of [computeTTL], and
    it is 0 or 1. [Heartbeat] never returns before a first [client.Set] has
    been sent and answered, even when [stop] is already closed. *)
Theorem Heartbeat_writes (beats : list beat) (name : string)
    (taskID interval : Z) :
  (∃ ttl,
     Forall (λ w, w = ReqSet (HealthyPath name taskID) "health" ttl)
            (hbWrites (Heartbeat beats name taskID interval)) ∧
     (- Second < interval →
      computeTTL interval = Some ttl ∧ 0 ≤ ttl ≤ 1)) ∧
  (∀ err, hbEnd (Heartbeat beats name taskID interval) = HbReturned err →
          hbWrites (Heartbeat beats name taskID interval) ≠ []).
Proof.
  split.
  - exists (runtimeTTL interval). split.
    + induction beats as [|b beats IH]; simpl; [constructor |].
      destruct b; simpl; repeat constructor; done.
    + intros Hdef. unfold runtimeTTL.
      destruct (computeTTL interval) as [ttl|] eqn:Httl.
      * split; [done |]. by apply (computeTTL_at_most_one interval).
      * exfalso. destruct (decide (interval < Second)) as [Hsub | Hsup].
        -- rewrite computeTTL_subsecond in Httl by lia. discriminate.
        -- rewrite computeTTL_positive in Httl by (unfold Second in *; lia).
           discriminate.
  - intros err. destruct beats as [|b beats]; simpl; [done |].
    by destruct b.
Qed.

Lemma Heartbeat_writes_witness :
  - Second < 2 * Second ∧
  hbEnd (Heartbeat Samples.threeBeats "job" 7 (2 * Second)) = HbReturned None ∧
  hbWrites (Heartbeat Samples.threeBeats "job" 7 (2 * Second)) ≠ [] ∧
  ∃ ttl,
    Forall (λ w, w = ReqSet (HealthyPath "job" 7) "health" ttl)
           (hbWrites (Heartbeat Samples.threeBeats "job" 7 (2 * Second))) ∧
    computeTTL (2 * Second) = Some ttl ∧ 0 ≤ ttl ≤ 1.
Proof.
  assert (Hdef : - Second < 2 * Second) by reflexivity.
  assert (Hend : hbEnd (Heartbeat Samples.threeBeats "job" 7 (2 * Second)) =
                 HbReturned None) by reflexivity.
  destruct (Heartbeat_writes Samples.threeBeats "job" 7 (2 * Second))
    as ((ttl & Hall & Httl) & Hnonempty).
  split_and!; [exact Hdef | exact Hend | exact (Hnonempty None Hend) |].
  exists ttl. split; [exact Hall | exact (Httl Hdef)].
Defined.

(** Below minus one second the loop runs all the same: on amd64 a
    heartbeat of minus one second sets a TTL of [2^64 - 5]. *)
Example Heartbeat_negative_interval :
  Heartbeat [SetThenTick; SetThenStop] "job" 7 (- Second) =
  {| hbEnd := HbReturned None;
     hbWrites :=
       [ReqSet (HealthyPath "job" 7) "health" 18446744073709551611;
        ReqSet (HealthyPath "job" 7) "health" 18446744073709551611] |}.
Proof. vm_compute. reflexivity. Qed.

Lemma serveAll_sets (s : store) (key value : string) (ttl : Z) (n : nat) :
  Forall (λ ev, Action ev = "set" ∧ Key (Node ev) = key ∧ Value (Node ev) = value)
         (serveAll s (replicate n (ReqSet key value ttl))).2 ∧
  length (serveAll s (replicate n (ReqSet key value ttl))).2 = n ∧
  (n ≠ 0%nat →
   kv (serveAll s (replicate n (ReqSet key value ttl))).1 !! key = Some value).
Proof.
  revert s. induction n as [|n IH]; intros s; simpl.
  - split_and!; [constructor | done | done].
  - destruct (serveAll _ (replicate n _)) as [s2 evs2] eqn:Hrest.
    specialize (IH {| kv := <[key:=value]> (kv s);
                      index := uint64_add (index s) 1 |}).
    rewrite Hrest in IH. simpl in *. destruct IH as (Hevs & Hlen & Hkv).
    split_and!.
    + by constructor.
    + by rewrite Hlen.
    + intros _. destruct n as [|n].
      * simpl in Hrest. injection Hrest as <- <-. simpl. apply lookup_insert_eq.
      * by apply Hkv.
Qed.

(** X4: a heartbeat below one second is written without expiry and does
    not look like a failure. For an interval strictly between minus one
    second and one second every write carries TTL 0, which the store takes
    as no expiry. When the store serves the writes of such a heartbeat
    that ticked [ticks] times, it publishes [ticks] events; a
    [DetectFailure] on the same task whose initial read succeeded and whose
    watches are answered by these events has watched once after the read
    and once after each event, from the index of the response before plus
    one, and is still waiting. After one write or more the store holds the
    health record. *)
Theorem heartbeat_keeps_detector_waiting (ticks : nat) (name : string)
    (taskID interval : Z) (s : store) (c : client) (r0 : Response) :
  - Second < interval < Second →
  Get c (HealthyPath name taskID) = Ok r0 →
  hbWrites (Heartbeat (replicate ticks SetThenTick) name taskID interval) =
    replicate ticks (ReqSet (HealthyPath name taskID) "health" 0) ∧
  length (serveAll s (hbWrites (Heartbeat (replicate ticks SetThenTick)
                                  name taskID interval))).2 = ticks ∧
  DetectFailure c
    (Ok <$> (serveAll s (hbWrites (Heartbeat (replicate ticks SetThenTick)
                                     name taskID interval))).2)
    name taskID =
    {| result := Blocked;
       watchCalls :=
         (λ r, (EtcdIndex r + 1) mod 2 ^ 64) <$>
           (r0 :: (serveAll s (hbWrites (Heartbeat (replicate ticks SetThenTick)
                                           name taskID interval))).2) |} ∧
  (ticks ≠ 0%nat →
   ∃ r, Get (Connected
               (serveAll s (hbWrites (Heartbeat (replicate ticks SetThenTick)
                                        name taskID interval))).1)
            (HealthyPath name taskID) = Ok r).
Proof.
  intros Hsub Hget.
  pose proof (runtimeTTL_defined _ _ (computeTTL_subsecond interval Hsub))
    as Httl.
  rewrite <- (app_nil_r (replicate ticks SetThenTick)).
  rewrite Heartbeat_ticks, Httl. simpl. rewrite app_nil_r.
  destruct (serveAll_sets s (HealthyPath name taskID) "health" 0 ticks)
    as (Hevs & Hlen & Hkv).
  assert (Hbenign : Forall (λ r, confirmsFailure r = false)
            (serveAll s (replicate ticks
               (ReqSet (HealthyPath name taskID) "health" 0))).2).
  { eapply Forall_impl; [exact Hevs |]. intros ev (Hact & _).
    unfold confirmsFailure. by rewrite Hact. }
  unfold DetectFailure. rewrite Hget.
  rewrite watchLoop_waiting by done.
  split_and!; [done | done | done |].
  intros Hne. unfold Get. rewrite (Hkv Hne). by eexists.
Qed.

Lemma heartbeat_keeps_detector_waiting_witness :
  - Second < 500000000 < Second ∧
  Get (Connected Samples.healthStore) (HealthyPath "job" 7) =
    Ok Samples.healthRead ∧
  DetectFailure (Connected Samples.healthStore)
    (Ok <$> (serveAll Samples.healthStore
               (hbWrites (Heartbeat (replicate 2 SetThenTick)
                            "job" 7 500000000))).2)
    "job" 7 =
    {| result := Blocked;
       watchCalls :=
         (λ r, (EtcdIndex r + 1) mod 2 ^ 64) <$>
           (Samples.healthRead ::
            (serveAll Samples.healthStore
               (hbWrites (Heartbeat (replicate 2 SetThenTick)
                            "job" 7 500000000))).2) |}.
Proof.
  assert (Hsub : - Second < 500000000 < Second) by (split; reflexivity).
  assert (Hget : Get (Connected Samples.healthStore) (HealthyPath "job" 7) =
                 Ok Samples.healthRead) by (vm_compute; reflexivity).
  split; [exact Hsub |]. split; [exact Hget |].
  exact (proj1 (proj2 (proj2 (heartbeat_keeps_detector_waiting 2 "job" 7
                         500000000 Samples.healthStore
                         (Connected Samples.healthStore) Samples.healthRead
                         Hsub Hget)))).
Defined.

Example heartbeat_half_second_sample :
  DetectFailure (Connected Samples.healthStore)
    (Ok <$> (serveAll Samples.healthStore
               (hbWrites (Heartbeat (replicate 2 SetThenTick)
                            "job" 7 500000000))).2)
    "job" 7 =
  {| result := Blocked; watchCalls := [42; 43; 44] |}.
Proof. vm_compute. reflexivity. Qed.

End HeartbeatLoop.

(** ** Binary search *)

Section BinarySearch.
Import Sort.

Lemma searchLoop_spec (f : nat → bool) (n : nat) :
  (∀ a b, (a ≤ b < n)%nat → f a = true → f b = true) →
  ∀ fuel i j,
    (i ≤ j ≤ n)%nat → (j - i ≤ fuel)%nat →
    (∀ k, (k < i)%nat → f k = false) →
    (∀ k, (j ≤ k < n)%nat → f k = true) →
    (i ≤ searchLoop fuel f i j ≤ j)%nat ∧
    (∀ k, (k < searchLoop fuel f i j)%nat → f k = false) ∧
    (∀ k, (searchLoop fuel f i j ≤ k < n)%nat → f k = true).
Proof.
  intros Hmono. induction fuel as [|fuel IH]; intros i j Hij Hfuel Hlow Hhigh;
    cbn [searchLoop].
  - assert (i = j) as -> by lia. split_and!; (lia || done).
  - case_bool_decide as Hlt.
    + assert (Hh : (i ≤ (i + j) / 2 < j)%nat).
      { split; [apply Nat.div_le_lower_bound; lia
               | apply Nat.Div0.div_lt_upper_bound; lia]. }
      remember ((i + j) / 2)%nat as h eqn:Heqh. clear Heqh.
      destruct (f h) eqn:Hfh; cbn [negb].
      * assert (Hup : ∀ k, (h ≤ k < n)%nat → f k = true).
        { intros k Hk. apply (Hmono h k); [lia | done]. }
        destruct (IH i h ltac:(lia) ltac:(lia) Hlow Hup) as (Hr & Hl & Hu).
        split_and!; (lia || done).
      * assert (Hdown : ∀ k, (k < h + 1)%nat → f k = false).
        { intros k Hk. destruct (f k) eqn:Hfk; [| done].
          rewrite (Hmono k h) in Hfh; [done | lia | done]. }
        destruct (IH (h + 1)%nat j ltac:(lia) ltac:(lia) Hdown Hhigh)
          as (Hr & Hl & Hu).
        split_and!; (lia || done).
    + assert (i = j) as -> by lia. split_and!; (lia || done).
Qed.

(** On a predicate that stays true once it is true, [Search] finds the
    first index where it holds, or [n] when there is none; the [n] turns
    it is given are enough. *)
Lemma Search_spec (f : nat → bool) (n : nat) :
  (∀ a b, (a ≤ b < n)%nat → f a = true → f b = true) →
  (Search n f ≤ n)%nat ∧
  (∀ k, (k < Search n f)%nat → f k = false) ∧
  (∀ k, (Search n f ≤ k < n)%nat → f k = true).
Proof.
  intros Hmono. unfold Search.
  destruct (searchLoop_spec f n Hmono n 0%nat n) as (Hr & Hl & Hu);
    [lia | lia | lia | lia |].
  split_and!; (lia || done).
Qed.

End BinarySearch.

(** ** The rows of the sharded matrix *)

Section RowLookup.
Import Sort Bwmf Expected.
Context {RowData float32 : Type}.
Implicit Types (w : list (list RowData)) (row : Z).

Lemma fillStarts_spec w :
  ∀ (done rest : list Z) (ost : Z),
    length rest = S (length w) →
    <[(length done + length w)%nat :=
        (fillStarts (length done) ost w (done ++ rest)).2]>
      (fillStarts (length done) ost w (done ++ rest)).1 =
    done ++ offsets ost w.
Proof.
  induction w as [|shard w IH]; intros done rest ost Hlen; simpl.
  - destruct rest as [|x [|? ?]]; try done.
    rewrite Nat.add_0_r, insert_app_r_alt by lia. by rewrite Nat.sub_diag.
  - destruct rest as [|x rest]; [done |].
    rewrite insert_app_r_alt by lia. rewrite Nat.sub_diag. simpl.
    rewrite (cons_middle ost done rest), app_assoc.
    replace (S (length done)) with (length (done ++ [ost]))
      by (rewrite length_app; simpl; lia).
    replace (length done + S (length w))%nat
      with (length (done ++ [ost]) + length w)%nat
      by (rewrite length_app; simpl; lia).
    rewrite IH by (simpl in Hlen; lia).
    by rewrite <- app_assoc.
Qed.

Lemma NewKLDivLoss_offsets v w m n k (smooth : float32) :
  ends (NewKLDivLoss v w m n k smooth) = offsets 0 w ∧
  W (NewKLDivLoss v w m n k smooth) = w.
Proof.
  unfold NewKLDivLoss.
  pose proof (fillStarts_spec w [] (replicate (length w + 1) 0) 0) as Hfill.
  simpl in Hfill. rewrite length_replicate in Hfill.
  destruct (fillStarts 0 0 w (replicate (length w + 1) 0)) as [stt ost].
  simpl in *. split; [apply Hfill; lia | done].
Qed.

Lemma length_offsets w : ∀ ost, length (offsets ost w) = S (length w).
Proof.
  induction w as [|shard w IH]; intros ost; simpl; [done | by rewrite IH].
Qed.

Lemma lookup_offsets w :
  ∀ ost (i : nat), (i ≤ length w)%nat →
    offsets ost w !! i = Some (ost + Z.of_nat (length (concat (take i w)))).
Proof.
  induction w as [|shard w IH]; intros ost i Hi.
  - assert (i = 0%nat) as -> by (simpl in Hi; lia). simpl. f_equal. lia.
  - destruct i as [|i]; simpl.
    + f_equal. lia.
    + rewrite IH by (simpl in Hi; lia). f_equal.
      rewrite length_app. lia.
Qed.

(** X5: the [ends] that [NewKLDivLoss] builds has one entry more than
    there are shards, and entry [i] is the number of rows of the first [i]
    shards: 0 first, the number of all rows last. *)
Theorem NewKLDivLoss_ends v w m n k (smooth : float32) :
  length (ends (NewKLDivLoss v w m n k smooth)) = S (length w) ∧
  ∀ i : nat, (i ≤ length w)%nat →
    ends (NewKLDivLoss v w m n k smooth) !! i =
      Some (Z.of_nat (length (concat (take i w)))).
Proof.
  destruct (NewKLDivLoss_offsets v w m n k smooth) as (-> & _).
  split; [apply length_offsets |].
  intros i Hi. by rewrite lookup_offsets.
Qed.

Lemma concat_take_mono w (a b : nat) :
  (a ≤ b)%nat →
  (length (concat (take a w)) ≤ length (concat (take b w)))%nat.
Proof.
  intros Hab. replace b with (a + (b - a))%nat by lia.
  rewrite <- take_take_drop, concat_app, length_app. lia.
Qed.

Lemma concat_lookup_shard w (b : nat) (shard : list RowData) (r : nat) :
  w !! b = Some shard →
  (length (concat (take b w)) ≤ r < length (concat (take (S b) w)))%nat →
  concat w !! r = shard !! (r - length (concat (take b w)))%nat.
Proof.
  intros Hb Hr.
  rewrite <- (take_drop (S b) w) at 1. rewrite concat_app.
  rewrite lookup_app_l by lia.
  rewrite (take_S_r _ _ _ Hb), concat_app in *. simpl in *.
  rewrite app_nil_r in *.
  by rewrite lookup_app_r by lia.
Qed.

(** X6: on a loss built by [NewKLDivLoss], [GetWRow(row)] is row number
    [row] of the shards laid end to end, empty shards skipped; it panics
    exactly when [row] is negative or not below the number of rows. *)
Theorem GetWRow_NewKLDivLoss v w m n k (smooth : float32) row :
  GetWRow (NewKLDivLoss v w m n k smooth) row = index (concat w) row.
Proof.
  destruct (NewKLDivLoss_offsets v w m n k smooth) as (Hends & HW).
  unfold GetWRow. rewrite Hends, HW, length_offsets.
  set (f := λ i : nat, bool_decide (offsets 0 w !!! i > row)).
  assert (Hf : ∀ i, (i ≤ length w)%nat →
            f i = bool_decide (Z.of_nat (length (concat (take i w))) > row)).
  { intros i Hi. unfold f.
    by rewrite (list_lookup_total_correct _ _ _ (lookup_offsets w 0 i Hi)). }
  assert (Hmono : ∀ a b, (a ≤ b < S (length w))%nat → f a = true → f b = true).
  { intros a b Hab. rewrite !Hf by lia. rewrite !bool_decide_eq_true.
    pose proof (concat_take_mono w a b). lia. }
  destruct (Search_spec f (S (length w)) Hmono) as (Hle & Hlow & Hhigh).
  set (r := Search (S (length w)) f) in *.
  assert (Htotal : concat (take (length w) w) = concat w)
    by (by rewrite take_ge).
  unfold index at 4.
  case_bool_decide as Hrow.
  - destruct (decide (row < Z.of_nat (length (concat w)))) as [Hin | Hout].
    + assert (Hr1 : (1 ≤ r)%nat).
      { destruct r as [|r']; [| lia].
        assert (Hf0 : f 0%nat = true) by (apply Hhigh; lia).
        rewrite Hf in Hf0 by lia. apply bool_decide_eq_true in Hf0.
        simpl in Hf0. lia. }
      assert (Hr2 : (r ≤ length w)%nat).
      { destruct (decide (r ≤ length w)%nat) as [|Hgt]; [done |].
        assert (Hfn : f (length w) = false) by (apply Hlow; lia).
        rewrite Hf in Hfn by lia. apply bool_decide_eq_false in Hfn.
        rewrite Htotal in Hfn. lia. }
      assert (Hfb : f (r - 1)%nat = false) by (apply Hlow; lia).
      assert (Hfr : f r = true) by (apply Hhigh; lia).
      rewrite Hf in Hfb, Hfr by lia.
      apply bool_decide_eq_false in Hfb. apply bool_decide_eq_true in Hfr.
      destruct (lookup_lt_is_Some_2 w (r - 1)%nat ltac:(lia))
        as (shard & Hshard).
      replace (Z.of_nat r - 1) with (Z.of_nat (r - 1)) by lia.
      unfold index. rewrite !bool_decide_eq_true_2 by lia.
      rewrite !Nat2Z.id, Hshard. simpl.
      rewrite (lookup_offsets w 0 (r - 1)) by lia. simpl.
      rewrite bool_decide_eq_true_2 by lia.
      rewrite (concat_lookup_shard w (r - 1) shard (Z.to_nat row) Hshard).
      * f_equal. lia.
      * replace (S (r - 1)) with r by lia. lia.
    + assert (Hrn : r = S (length w)).
      { destruct (decide (r = S (length w))) as [|Hne]; [done |].
        assert (Hfr : f r = true) by (apply Hhigh; lia).
        rewrite Hf in Hfr by lia. apply bool_decide_eq_true in Hfr.
        pose proof (concat_take_mono w r (length w) ltac:(lia)).
        rewrite Htotal in *. lia. }
      rewrite Hrn.
      replace (Z.of_nat (S (length w)) - 1) with (Z.of_nat (length w)) by lia.
      unfold index. rewrite bool_decide_eq_true_2 by lia.
      rewrite Nat2Z.id, (lookup_ge_None_2 w) by lia. simpl.
      symmetry. apply lookup_ge_None_2. lia.
  - assert (Hr0 : r = 0%nat).
    { destruct r as [|r']; [done |].
      assert (Hf0 : f 0%nat = false) by (apply Hlow; lia).
      rewrite Hf in Hf0 by lia. apply bool_decide_eq_false in Hf0.
      simpl in Hf0. lia. }
    rewrite Hr0. unfold index. simpl. done.
Qed.

End RowLookup.

Example GetWRow_sample :
  (Bwmf.GetWRow (Bwmf.NewKLDivLoss [] Samples.shards 3 1 2 tt)) <$>
    [-1; 0; 1; 2; 3] =
  [None; Some 10%nat; Some 11%nat; Some 12%nat; None].
Proof. vm_compute. reflexivity. Qed.

Lemma NewKLDivLoss_ends_witness :
  (2 ≤ length Samples.shards)%nat ∧
  Bwmf.ends (Bwmf.NewKLDivLoss [] Samples.shards 3 1 2 tt) !! 2%nat =
    Some (Z.of_nat (length (concat (take 2 Samples.shards)))).
Proof.
  assert (Hi : (2 ≤ length Samples.shards)%nat) by (simpl; lia).
  split; [exact Hi |].
  exact (proj2 (NewKLDivLoss_ends [] Samples.shards 3 1 2 tt) 2%nat Hi).
Defined.

(** ** Stop handles *)

Section Handles.
Import Etcd Meritop Expected.

Lemma lookup_freshChans (n : nat) :
  ∀ base i, (i < n)%nat → freshChans base n !! i = Some (Chan (base + i)).
Proof.
  induction n as [|n IH]; intros base i Hi; [lia |].
  destruct i as [|i]; simpl.
  - by rewrite Nat.add_0_r.
  - rewrite IH by lia. by rewrite Nat.add_succ_r.
Qed.

Lemma elem_of_freshChans (n : nat) :
  ∀ base c, c ∈ freshChans base n →
    ∃ i, (i < n)%nat ∧ c = Chan (base + i).
Proof.
  induction n as [|n IH]; intros base c Hc; simpl in Hc.
  - by apply elem_of_nil in Hc.
  - apply elem_of_cons in Hc as [-> | Hc].
    + exists 0%nat. split; [lia | by rewrite Nat.add_0_r].
    + destruct (IH _ _ Hc) as (i & Hi & ->).
      exists (S i). split; [lia | by rewrite Nat.add_succ_r].
Qed.

Lemma NoDup_freshChans (n : nat) : ∀ base, NoDup (freshChans base n).
Proof.
  induction n as [|n IH]; intros base; simpl; constructor; [| apply IH].
  intros Hin. destruct (elem_of_freshChans _ _ _ Hin) as (i & _ & [= Heq]). lia.
Qed.

Lemma lookup_neighborWatches path cb (ids : list Z) :
  ∀ base i id, ids !! i = Some id →
    neighborWatches path cb base ids !! i =
      Some {| watchPath := path id; stop_ := Chan (base + i);
              taskCallback := cb; neighbor := id |}.
Proof.
  induction ids as [|id' ids IH]; intros base i id Hi; [done |].
  destruct i as [|i]; simpl in *.
  - injection Hi as ->. by rewrite Nat.add_0_r.
  - rewrite (IH _ _ _ Hi). by rewrite Nat.add_succ_r.
Qed.

Lemma length_neighborWatches path cb (ids : list Z) :
  ∀ base, length (neighborWatches path cb base ids) = length ids.
Proof. induction ids as [|id ids IH]; intros base; simpl; [done | by rewrite IH]. Qed.

Lemma elem_of_neighborWatches path cb (ids : list Z) :
  ∀ base w, w ∈ neighborWatches path cb base ids →
    ∃ i, (i < length ids)%nat ∧ stop_ w = Chan (base + i).
Proof.
  induction ids as [|id ids IH]; intros base w Hw; simpl in Hw.
  - by apply elem_of_nil in Hw.
  - apply elem_of_cons in Hw as [-> | Hw].
    + exists 0%nat. simpl. split; [lia | by rewrite Nat.add_0_r].
    + destruct (IH _ _ Hw) as (i & Hi & Hstop).
      exists (S i). simpl. split; [lia | by rewrite Hstop, Nat.add_succ_r].
Qed.

(** X7: [watchAll] panics in one case only: the role is neither parent
    nor child and there is at least one task to watch. With no task it
    returns for any role. *)
Theorem watchAll_panics_iff (who : taskRole) (ids : list Z) (p : proc) :
  (∃ msg, watchAll who ids p = Panic msg) ↔ who = noneRole ∧ ids ≠ [].
Proof.
  destruct who.
  - destruct ids as [|id ids].
    + split; [intros (msg & Hp); discriminate | intros (_ & Hne); done].
    + split; [done |]. intros _. exists "unimplemented"%string.
      apply watchAll_noneRole.
  - rewrite (watchAll_spec parentRole MakeChildMetaPath ParentMetaReady) by done.
    split; [intros (msg & Hp); discriminate | intros (Hrole & _); discriminate].
  - rewrite (watchAll_spec childRole MakeParentMetaPath ChildMetaReady) by done.
    split; [intros (msg & Hp); discriminate | intros (Hrole & _); discriminate].
Qed.

Lemma watchTarget_role (who : taskRole) :
  who ≠ noneRole →
  ∃ path cb, ∀ f id, watchTarget who f id = Some (path (name f) id, cb).
Proof.
  destruct who; [done | |]; intros _.
  - by exists MakeChildMetaPath, ParentMetaReady.
  - by exists MakeParentMetaPath, ChildMetaReady.
Qed.

(** X8: for the parent or the child role, [watchAll] returns one handle
    per identifier, in order, with no handle twice. Handle [i] is a channel
    that did not exist before and is open, and it is the stop channel of
    the watch just started on identifier [i], whose path and callback are
    those of the role. The framework value is not touched. *)
Theorem watchAll_handles (who : taskRole) (ids : list Z) (p : proc) :
  who ≠ noneRole →
  ∃ handles q,
    watchAll who ids p = Done (handles, q) ∧
    length handles = length ids ∧
    NoDup handles ∧
    fw q = fw p ∧
    length (watchers q) = (length (watchers p) + length ids)%nat ∧
    ∀ i id, ids !! i = Some id →
      ∃ c path cb,
        handles !! i = Some (Chan c) ∧
        chans p !! c = None ∧
        chans q !! c = Some false ∧
        watchTarget who (fw p) id = Some (path, cb) ∧
        watchers q !! (length (watchers p) + i)%nat =
          Some {| watchPath := path; stop_ := Chan c;
                  taskCallback := cb; neighbor := id |}.
Proof.
  intros Hwho. destruct (watchTarget_role who Hwho) as (path & cb & Htarget).
  eexists _, _. split; [apply (watchAll_spec who path cb Htarget) |].
  split; [| split; [apply NoDup_freshChans |]].
  { clear. generalize (length (chans p)). induction (length ids) as [|n IH];
      intros base; simpl; [done | by rewrite IH]. }
  split; [done |]. simpl. split.
  { by rewrite length_app, length_neighborWatches. }
  intros i id Hi. pose proof (lookup_lt_Some _ _ _ Hi) as Hlt.
  exists (length (chans p) + i)%nat, (path (name (fw p)) id), cb.
  split_and!.
  - by apply lookup_freshChans.
  - apply lookup_ge_None_2. lia.
  - rewrite lookup_app_r by lia. apply lookup_replicate. split; [done | lia].
  - apply Htarget.
  - rewrite lookup_app_r by lia.
    replace (length (watchers p) + i - length (watchers p))%nat with i by lia.
    by apply lookup_neighborWatches.
Qed.

(** X9: [stop] after [start] never panics. It leaves the channels that
    existed before [start] as they were and closes every channel [start]
    made, of which there is one per handle in [f.stops]; from then on no
    watch that [start] set up calls the task, whatever the store
    publishes. *)
Theorem stop_cancels_watches (p : proc) :
  ∃ q,
    (start ≫= λ _, stop) p = Done (tt, q) ∧
    take (length (chans p)) (chans q) = chans p ∧
    Forall (λ closed, closed = true) (drop (length (chans p)) (chans q)) ∧
    (length (chans q) = length (chans p) + length (stops (fw q)))%nat ∧
    ∀ w events,
      w ∈ drop (length (watchers p)) (watchers q) →
      reaction q w events = [].
Proof.
  eexists. split.
  { rewrite bind_run, start_spec. apply stop_after_start. }
  set (n := length (stops (fw (started p)))).
  simpl. split_and!.
  - by rewrite take_app_length.
  - rewrite drop_app_length. by apply Forall_replicate.
  - rewrite length_app, length_replicate. done.
  - intros w events Hw.
    rewrite <- app_assoc, drop_app_length in Hw.
    assert (Hstop : ∃ i, (i < n)%nat ∧ stop_ w = Chan (length (chans p) + i)).
    { subst n. simpl. rewrite length_app, !length_freshChans.
      apply elem_of_app in Hw as [Hw | Hw].
      - destruct (elem_of_neighborWatches _ _ _ _ _ Hw) as (i & Hi & Hs).
        exists i. split; [lia | done].
      - destruct (elem_of_neighborWatches _ _ _ _ _ Hw) as (i & Hi & Hs).
        eexists (_ + i)%nat. split; [| by rewrite Hs, Nat.add_assoc].
        unfold GetParents in *. simpl in *. lia. }
    destruct Hstop as (i & Hi & Hstop).
    unfold reaction, running. rewrite Hstop. simpl.
    rewrite lookup_app_r by lia.
    replace (length (chans p) + i - length (chans p))%nat with i by lia.
    rewrite (proj2 (lookup_replicate _ _ _ _)) by done.
    done.
Qed.

(** X10: a second [stop] closes closed channels. [start], [stop], [stop]
    ends in the panic of [close] as soon as the task has a parent or a
    child at epoch 0; with no neighbour both calls return and no channel
    changes. *)
Theorem stop_twice (p : proc) :
  let t := SetTaskID (topology (fw p)) (taskID (fw p)) in
  (GetParents t 0 ++ GetChildren t 0 = [] →
   ∃ q, (start ≫= λ _, stop ≫= λ _, stop) p = Done (tt, q) ∧
        chans q = chans p) ∧
  (GetParents t 0 ++ GetChildren t 0 ≠ [] →
   (start ≫= λ _, stop ≫= λ _, stop) p = Panic "close of closed channel").
Proof.
  intros t. split.
  - intros Hnone. apply app_eq_nil in Hnone as (Hp & Hc).
    subst t. unfold GetParents, GetChildren in Hp, Hc. simpl in Hp, Hc.
    eexists. split.
    { rewrite bind_run, start_spec, bind_run, stop_after_start.
      unfold stop. rewrite bind_run. simpl. rewrite Hp, Hc. simpl.
      reflexivity. }
    simpl. by rewrite app_nil_r.
  - intros Hsome. rewrite bind_run, start_spec, bind_run.
    destruct (stop (started p)) as [[[] q]|msg] eqn:Hstop.
    + apply (stop_twice_panics p q); [| done].
      simpl. intros Hnil. apply Hsome.
      apply (f_equal length) in Hnil.
      rewrite length_app, !length_freshChans in Hnil.
      apply length_zero_iff_nil. rewrite length_app. simpl in Hnil.
      subst t. exact Hnil.
    + by rewrite stop_after_start in Hstop.
Qed.


Lemma watchAll_panics_iff_witness :
  ∃ msg, watchAll noneRole [5] Samples.chainProc = Panic msg.
Proof.
  apply (proj2 (watchAll_panics_iff noneRole [5] Samples.chainProc)).
  split; [reflexivity | discriminate].
Defined.

Lemma watchAll_handles_witness :
  ∃ handles q,
    watchAll parentRole [5; 6] Samples.chainProc = Done (handles, q) ∧
    length handles = 2%nat ∧
    NoDup handles.
Proof.
  destruct (watchAll_handles parentRole [5; 6] Samples.chainProc
              ltac:(discriminate))
    as (handles & q & Hrun & Hlen & Hnodup & _).
  exists handles, q. split_and!; [exact Hrun | exact Hlen | exact Hnodup].
Defined.

Lemma stop_cancels_watches_witness :
  ∃ q,
    (start ≫= λ _, stop) Samples.chainProc = Done (tt, q) ∧
    ∀ events, reaction q Samples.parentWatch events = [].
Proof.
  destruct (stop_cancels_watches Samples.chainProc)
    as (q & Hrun & _ & _ & _ & Hquiet).
  exists q. split; [exact Hrun |].
  intros events. apply Hquiet.
  pose proof Hrun as Hq. rewrite bind_run, start_spec, stop_after_start in Hq.
  injection Hq as <-. vm_compute. left.
Defined.

Lemma stop_twice_witness :
  (start ≫= λ _, stop ≫= λ _, stop) Samples.chainProc =
    Panic "close of closed channel".
Proof.
  apply (proj2 (stop_twice Samples.chainProc)).
  vm_compute. discriminate.
Defined.

End Handles.

(** ** Data requests and responses *)

Section DataExchange.
Import Etcd Meritop Expected.

Lemma parentOrChild_cases (f : framework) (id : Z) :
  parentOrChild f id =
    if decide (id ∈ GetParents (topology f) (epoch f)) then parentRole
    else if decide (id ∈ GetChildren (topology f) (epoch f)) then childRole
    else noneRole.
Proof.
  unfold parentOrChild.
  destruct (occurs id (GetParents _ _)) eqn:Hp.
  - apply occurs_spec in Hp. by rewrite decide_True.
  - apply occurs_false in Hp. rewrite decide_False by done.
    destruct (occurs id (GetChildren _ _)) eqn:Hc.
    + apply occurs_spec in Hc. by rewrite decide_True.
    + apply occurs_false in Hc. by rewrite decide_False.
Qed.


(** X12: [dataResponseEventLoop] hands the responses over in the order
    of the queue, one call each: [ParentDataReady] when the responder is
    among the parents, [ChildDataReady] when it is only among the
    children, with the responder, request and bytes of the response. At the
    first response whose responder is neither, the loop panics; nothing
    behind it in the queue is delivered. *)
Theorem dataResponseEventLoop_spec (f : framework) (queue : list dataResponse) :
  ∃ pre : list dataResponse,
    Forall (λ r, dr_taskID r ∈ GetParents (topology f) (epoch f) ∨
                 dr_taskID r ∈ GetChildren (topology f) (epoch f)) pre ∧
    (dataResponseEventLoop f queue).1 =
      (λ r, if decide (dr_taskID r ∈ GetParents (topology f) (epoch f))
            then CallParentDataReady (dr_taskID r) (dr_req r) (dr_data r)
            else CallChildDataReady (dr_taskID r) (dr_req r) (dr_data r))
      <$> pre ∧
    ((queue = pre ∧ (dataResponseEventLoop f queue).2 = Waiting) ∨
     (∃ r rest,
        queue = pre ++ r :: rest ∧
        (dr_taskID r ∉ GetParents (topology f) (epoch f)) ∧
        (dr_taskID r ∉ GetChildren (topology f) (epoch f)) ∧
        (dataResponseEventLoop f queue).2 = LoopPanic "unimplemented")).
Proof.
  induction queue as [|r queue (pre & Hpre & Hcalls & Hend)].
  - exists []. split_and!; [constructor | done | by left].
  - simpl. rewrite parentOrChild_cases.
    destruct (decide (dr_taskID r ∈ GetParents _ _)) as [Hp | Hp].
    + exists (r :: pre).
      destruct (dataResponseEventLoop f queue) as [calls e]. simpl in *.
      split_and!.
      * constructor; [by left | done].
      * by rewrite decide_True, Hcalls.
      * destruct Hend as [[-> ->] | (r' & rest & -> & ? & ? & ->)].
        -- by left.
        -- right. by exists r', rest.
    + destruct (decide (dr_taskID r ∈ GetChildren _ _)) as [Hc | Hc].
      * exists (r :: pre).
        destruct (dataResponseEventLoop f queue) as [calls e]. simpl in *.
        split_and!.
        -- constructor; [by right | done].
        -- by rewrite decide_False, Hcalls.
        -- destruct Hend as [[-> ->] | (r' & rest & -> & ? & ? & ->)].
           ++ by left.
           ++ right. by exists r', rest.
      * exists []. split_and!; [constructor | done |].
        right. by exists r, queue.
Qed.

Lemma DataRequest_known (f : framework) (addressMap : gmap Z string)
    (toID : Z) (addr req : string) :
  addressMap !! toID = Some addr →
  ∃ u, DataRequest f addressMap toID req = Fetching u ∧
       Scheme u = "http" ∧ Host u = addr ∧ Path u = DataRequestPrefix ∧
       queryGet (Query u) DataRequestTaskID = FormatUint (taskID f) ∧
       queryGet (Query u) DataRequestReq = req.
Proof.
  intros Haddr. unfold DataRequest. rewrite Haddr. eexists. by split_and!.
Qed.

(** X13: a child pulls from its parent. Let the client know the address
    of [toID] and hold it for a parent, let the server hold the client for
    a child and not for a parent, and let the decimal form of the client's
    identifier parse back to it. Then [DataRequest(toID, req)] fetches from
    that address at the data request path; the handler of the server
    answers with [ServeAsParent(client, req)]; the goroutine queues a
    response with [toID], [req] and those bytes; and the event loop of the
    client calls [ParentDataReady(toID, req, bytes)]. *)
Theorem child_pulls_from_parent (ParseUint : string → option Z)
    (client server : framework) (addressMap : gmap Z string)
    (toID : Z) (addr req : string) :
  addressMap !! toID = Some addr →
  ParseUint (FormatUint (taskID client)) = Some (taskID client) →
  taskID client ∉ GetParents (topology server) (epoch server) →
  taskID client ∈ GetChildren (topology server) (epoch server) →
  toID ∈ GetParents (topology client) (epoch client) →
  ∃ u resp,
    DataRequest client addressMap toID req = Fetching u ∧
    Host u = addr ∧ Path u = DataRequestPrefix ∧
    newDataReqHandler ParseUint server (queryGet (Query u)) =
      Respond (CallServeAsParent (taskID client) req)
        (ServeAsParent (task server) (taskID client) req) ∧
    awaitResponse toID req (roundTrip ParseUint server u) = Enqueued resp ∧
    dataResponseEventLoop client [resp] =
      ([CallParentDataReady toID req
          (ServeAsParent (task server) (taskID client) req)], Waiting).
Proof.
  intros Haddr Hparse Hnp Hc Hto.
  destruct (DataRequest_known client addressMap toID addr req Haddr)
    as (u & Hu & _ & Hhost & Hpath & Hqid & Hqreq).
  assert (Hserved : newDataReqHandler ParseUint server (queryGet (Query u)) =
      Respond (CallServeAsParent (taskID client) req)
        (ServeAsParent (task server) (taskID client) req)).
  { unfold newDataReqHandler. rewrite Hqid, Hparse, Hqreq.
    unfold serveDataReq. rewrite parentOrChild_cases.
    by rewrite decide_False, decide_True. }
  eexists u, _. split_and!; [done | done | done | done | |].
  - unfold roundTrip. rewrite Hserved. reflexivity.
  - simpl. rewrite parentOrChild_cases. by rewrite decide_True.
Qed.

(** X14: a parent pulls from its child. With the server holding the
    client for a parent, and the client holding [toID] for a child and not
    for a parent, the same exchange goes through [ServeAsChild] on the
    server and ends in [ChildDataReady(toID, req, bytes)] on the client. *)
Theorem parent_pulls_from_child (ParseUint : string → option Z)
    (client server : framework) (addressMap : gmap Z string)
    (toID : Z) (addr req : string) :
  addressMap !! toID = Some addr →
  ParseUint (FormatUint (taskID client)) = Some (taskID client) →
  taskID client ∈ GetParents (topology server) (epoch server) →
  toID ∉ GetParents (topology client) (epoch client) →
  toID ∈ GetChildren (topology client) (epoch client) →
  ∃ u resp,
    DataRequest client addressMap toID req = Fetching u ∧
    Host u = addr ∧ Path u = DataRequestPrefix ∧
    newDataReqHandler ParseUint server (queryGet (Query u)) =
      Respond (CallServeAsChild (taskID client) req)
        (ServeAsChild (task server) (taskID client) req) ∧
    awaitResponse toID req (roundTrip ParseUint server u) = Enqueued resp ∧
    dataResponseEventLoop client [resp] =
      ([CallChildDataReady toID req
          (ServeAsChild (task server) (taskID client) req)], Waiting).
Proof.
  intros Haddr Hparse Hp Hnto Hto.
  destruct (DataRequest_known client addressMap toID addr req Haddr)
    as (u & Hu & _ & Hhost & Hpath & Hqid & Hqreq).
  assert (Hserved : newDataReqHandler ParseUint server (queryGet (Query u)) =
      Respond (CallServeAsChild (taskID client) req)
        (ServeAsChild (task server) (taskID client) req)).
  { unfold newDataReqHandler. rewrite Hqid, Hparse, Hqreq.
    unfold serveDataReq. rewrite parentOrChild_cases.
    by rewrite decide_True. }
  eexists u, _. split_and!; [done | done | done | done | |].
  - unfold roundTrip. rewrite Hserved. reflexivity.
  - simpl. rewrite parentOrChild_cases.
    by rewrite decide_False, decide_True.
Qed.

(** X15: a requester the server does not know costs the requester its
    process. When the server holds the client neither for a parent nor for
    a child, its handler panics and serves nothing, [http.Get] fails, and
    the goroutine of [DataRequest] ends in [log.Fatalf]; no response is
    queued. *)
Theorem unknown_requester_is_fatal (ParseUint : string → option Z)
    (client server : framework) (addressMap : gmap Z string)
    (toID : Z) (addr req : string) :
  addressMap !! toID = Some addr →
  ParseUint (FormatUint (taskID client)) = Some (taskID client) →
  taskID client ∉ GetParents (topology server) (epoch server) →
  taskID client ∉ GetChildren (topology server) (epoch server) →
  ∃ u,
    DataRequest client addressMap toID req = Fetching u ∧
    newDataReqHandler ParseUint server (queryGet (Query u)) =
      HandlerPanic "unimplemented" ∧
    awaitResponse toID req (roundTrip ParseUint server u) =
      FetchFatal GetReturnedError.
Proof.
  intros Haddr Hparse Hnp Hnc.
  destruct (DataRequest_known client addressMap toID addr req Haddr)
    as (u & Hu & _ & Hhost & Hpath & Hqid & Hqreq).
  assert (Hserved : newDataReqHandler ParseUint server (queryGet (Query u)) =
      HandlerPanic "unimplemented").
  { unfold newDataReqHandler. rewrite Hqid, Hparse, Hqreq.
    unfold serveDataReq. rewrite parentOrChild_cases.
    by rewrite !decide_False. }
  exists u. split_and!; [done | done |].
  unfold roundTrip. by rewrite Hserved.
Qed.


Lemma dataResponseEventLoop_spec_witness :
  ∃ pre : list dataResponse,
    (dataResponseEventLoop (Samples.lineFramework 3)
       [{| dr_taskID := 4; dr_req := "a"; dr_data := [] |};
        {| dr_taskID := 7; dr_req := "b"; dr_data := [] |}]).1 =
      (λ r, if decide (dr_taskID r ∈
                         GetParents (topology (Samples.lineFramework 3))
                           (epoch (Samples.lineFramework 3)))
            then CallParentDataReady (dr_taskID r) (dr_req r) (dr_data r)
            else CallChildDataReady (dr_taskID r) (dr_req r) (dr_data r))
      <$> pre.
Proof.
  destruct (dataResponseEventLoop_spec (Samples.lineFramework 3)
              [{| dr_taskID := 4; dr_req := "a"; dr_data := [] |};
               {| dr_taskID := 7; dr_req := "b"; dr_data := [] |}])
    as (pre & _ & Hcalls & _).
  exists pre. exact Hcalls.
Defined.

Lemma child_pulls_from_parent_witness :
  ∃ u resp,
    DataRequest (Samples.lineFramework 3) Samples.addresses 4 "shardIndex=3" =
      Fetching u ∧
    Host u = "10.0.0.4:8000" ∧ Path u = DataRequestPrefix ∧
    newDataReqHandler Samples.parseSmall (Samples.lineFramework 4)
      (queryGet (Query u)) =
      Respond (CallServeAsParent (taskID (Samples.lineFramework 3))
                 "shardIndex=3")
        (ServeAsParent (task (Samples.lineFramework 4))
           (taskID (Samples.lineFramework 3)) "shardIndex=3") ∧
    awaitResponse 4 "shardIndex=3"
      (roundTrip Samples.parseSmall (Samples.lineFramework 4) u) =
      Enqueued resp ∧
    dataResponseEventLoop (Samples.lineFramework 3) [resp] =
      ([CallParentDataReady 4 "shardIndex=3"
          (ServeAsParent (task (Samples.lineFramework 4))
             (taskID (Samples.lineFramework 3)) "shardIndex=3")], Waiting).
Proof.
  apply (child_pulls_from_parent Samples.parseSmall
           (Samples.lineFramework 3) (Samples.lineFramework 4)
           Samples.addresses 4 "10.0.0.4:8000" "shardIndex=3").
  - vm_compute. reflexivity.
  - vm_compute. reflexivity.
  - vm_compute. intros Hin. apply list_elem_of_singleton in Hin. discriminate.
  - vm_compute. left.
  - vm_compute. left.
Defined.

Lemma parent_pulls_from_child_witness :
  ∃ u resp,
    DataRequest (Samples.lineFramework 4) Samples.addresses 3 "shardIndex=3" =
      Fetching u ∧
    Host u = "10.0.0.3:8000" ∧ Path u = DataRequestPrefix ∧
    newDataReqHandler Samples.parseSmall (Samples.lineFramework 3)
      (queryGet (Query u)) =
      Respond (CallServeAsChild (taskID (Samples.lineFramework 4))
                 "shardIndex=3")
        (ServeAsChild (task (Samples.lineFramework 3))
           (taskID (Samples.lineFramework 4)) "shardIndex=3") ∧
    awaitResponse 3 "shardIndex=3"
      (roundTrip Samples.parseSmall (Samples.lineFramework 3) u) =
      Enqueued resp ∧
    dataResponseEventLoop (Samples.lineFramework 4) [resp] =
      ([CallChildDataReady 3 "shardIndex=3"
          (ServeAsChild (task (Samples.lineFramework 3))
             (taskID (Samples.lineFramework 4)) "shardIndex=3")], Waiting).
Proof.
  apply (parent_pulls_from_child Samples.parseSmall
           (Samples.lineFramework 4) (Samples.lineFramework 3)
           Samples.addresses 3 "10.0.0.3:8000" "shardIndex=3").
  - vm_compute. reflexivity.
  - vm_compute. reflexivity.
  - vm_compute. left.
  - vm_compute. intros Hin. apply list_elem_of_singleton in Hin. discriminate.
  - vm_compute. left.
Defined.

Lemma unknown_requester_is_fatal_witness :
  ∃ u,
    DataRequest (Samples.lineFramework 3) Samples.addresses 7 "shardIndex=3" =
      Fetching u ∧
    newDataReqHandler Samples.parseSmall (Samples.lineFramework 7)
      (queryGet (Query u)) = HandlerPanic "unimplemented" ∧
    awaitResponse 7 "shardIndex=3"
      (roundTrip Samples.parseSmall (Samples.lineFramework 7) u) =
      FetchFatal GetReturnedError.
Proof.
  apply (unknown_requester_is_fatal Samples.parseSmall
           (Samples.lineFramework 3) (Samples.lineFramework 7)
           Samples.addresses 7 "10.0.0.7:8000" "shardIndex=3").
  - vm_compute. reflexivity.
  - vm_compute. reflexivity.
  - vm_compute. intros Hin. apply list_elem_of_singleton in Hin. discriminate.
  - vm_compute. intros Hin. apply list_elem_of_singleton in Hin. discriminate.
Defined.

End DataExchange.

(** ** Readiness signals through the store *)

Section Signals.
Import Etcd Meritop Expected.

Lemma receiveLoop_no_set cb id (events : list Response) :
  Forall (λ ev, Action ev ≠ "set") events →
  receiveLoop cb id events = [].
Proof.
  induction 1 as [|ev events Hev _ IH]; simpl; [done |].
  by rewrite bool_decide_eq_true_2.
Qed.

Lemma serve_create_events (s : store) (key value : string) (ttl : Z) :
  Forall (λ ev, Action ev = "create") (serve s (ReqCreate key value ttl)).2.
Proof.
  simpl. unfold applyCreate. destruct (kv s !! key); simpl; repeat constructor.
Qed.

(** X16: creating its two flags is all [start] writes to the store, and
    it signals nothing. Besides these two writes [start] reaches the store
    only through the watches of [watchAll], one per parent and one per
    child at epoch 0. The writes are creates of the task's own parent and
    child flag, with an empty value and TTL 0; whatever the store holds,
    the events they cause make no watch of any process call its task. *)
Theorem start_creates_signal_nothing (p : proc) :
  ∃ q0 create1 create2,
    start p = Done (tt, q0) ∧
    etcdReqs q0 = etcdReqs p ++ [create1; create2] ∧
    create1 = ReqCreate (MakeParentMetaPath (name (fw p)) (taskID (fw p))) "" 0 ∧
    create2 = ReqCreate (MakeChildMetaPath (name (fw p)) (taskID (fw p))) "" 0 ∧
    length (watchers q0) =
      (length (watchers p) +
       length (parentsOf (topology (fw p)) (taskID (fw p)) 0) +
       length (childrenOf (topology (fw p)) (taskID (fw p)) 0))%nat ∧
    (∀ (s : store) (q : proc) (w : watcher),
       reaction q w (serveAll s [create1; create2]).2 = []).
Proof.
  eexists _, _, _. split; [apply start_spec |].
  split; [reflexivity |]. split; [reflexivity |]. split; [reflexivity |].
  split.
  { simpl. by rewrite !length_app, !length_neighborWatches. }
  intros s q w. unfold reaction. destruct (running q w); [| done].
  apply receiveLoop_no_set.
  apply Forall_forall. intros ev Hev.
  apply list_elem_of_filter in Hev as (_ & Hev).
  assert (Hcreate : Action ev = "create"); [| by rewrite Hcreate].
  revert ev Hev. apply Forall_forall. simpl.
  pose proof (serve_create_events s
    (MakeParentMetaPath (name (fw p)) (taskID (fw p))) "" 0) as H1.
  simpl in H1.
  destruct (applyCreate s _ "") as [s1 evs1].
  pose proof (serve_create_events s1
    (MakeChildMetaPath (name (fw p)) (taskID (fw p))) "" 0) as H2.
  simpl in H2.
  destruct (applyCreate s1 _ "") as [s2 evs2]. simpl in *.
  rewrite app_nil_r. by apply Forall_app.
Qed.

Lemma serveAll_sets_events (sets : list (string * string)) :
  ∀ s, Action <$> (serveAll s ((λ kv, ReqSet kv.1 kv.2 0) <$> sets)).2 =
         (λ _, "set"%string) <$> sets ∧
       (λ ev, (Key (Node ev), Value (Node ev))) <$>
         (serveAll s ((λ kv, ReqSet kv.1 kv.2 0) <$> sets)).2 = sets.
Proof.
  induction sets as [|[key value] sets IH]; intros s; [done |].
  specialize (IH {| kv := <[key:=value]> (kv s);
                    index := uint64_add (index s) 1 |}).
  simpl in IH |- *.
  destruct (serveAll _ _) as [s2 evs2]. simpl in *.
  destruct IH as [IH1 IH2]. split; f_equal; [exact IH1 | exact IH2].
Qed.

Lemma receiveLoop_sets cb id (path : string) (events : list Response) :
  Forall (λ ev, Action ev = "set") events →
  receiveLoop cb id (filter (λ ev, notifies path ev = true) events) =
    invoke cb id <$>
      (snd <$> filter (λ kv, kv.1 = path)
                 ((λ ev, (Key (Node ev), Value (Node ev))) <$> events)).
Proof.
  induction 1 as [|ev events Hev _ IH]; [done |].
  rewrite fmap_cons, !filter_cons. simpl.
  destruct (decide (Key (Node ev) = path)) as [Hk | Hk].
  - rewrite decide_True by (unfold notifies; by apply bool_decide_eq_true_2).
    simpl. rewrite Hev. simpl. by rewrite IH.
  - rewrite decide_False; [done |].
    unfold notifies. by rewrite bool_decide_eq_false_2.
Qed.

(** X17: a running watch turns the sets of its path into calls one for
    one. When the store serves a sequence of sets, the watch calls its
    callback once per set of its own path, in the order of the sets, with
    the neighbour it was started for and the value written; sets of other
    paths add nothing. *)
Theorem readiness_signals_in_order (q : proc) (w : watcher) (s : store)
    (sets : list (string * string)) :
  running q w = true →
  reaction q w (serveAll s ((λ kv, ReqSet kv.1 kv.2 0) <$> sets)).2 =
    invoke (taskCallback w) (neighbor w) <$>
      (snd <$> filter (λ kv, kv.1 = watchPath w) sets).
Proof.
  intros Hrun. unfold reaction. rewrite Hrun.
  destruct (serveAll_sets_events sets s) as (Hact & Hkv).
  rewrite receiveLoop_sets.
  - by rewrite Hkv.
  - apply Forall_forall. intros ev Hev.
    apply (list_elem_of_fmap_2 Action) in Hev. rewrite Hact in Hev.
    by apply list_elem_of_fmap in Hev as (? & -> & _).
Qed.


Lemma start_creates_signal_nothing_witness :
  ∃ q0,
    start Samples.chainProc = Done (tt, q0) ∧
    ∀ (s : store) (q : proc) (w : watcher),
      reaction q w
        (serveAll s [ReqCreate "/parentMeta/job/3" "" 0;
                     ReqCreate "/childMeta/job/3" "" 0]).2 = [].
Proof.
  destruct (start_creates_signal_nothing Samples.chainProc)
    as (q0 & c1 & c2 & Hstart & _ & -> & -> & _ & Hquiet).
  exists q0. split; [exact Hstart | exact Hquiet].
Defined.

Lemma readiness_signals_in_order_witness :
  running (started Samples.chainProc) Samples.parentWatch = true ∧
  reaction (started Samples.chainProc) Samples.parentWatch
    (serveAll Samples.emptyStore
       ((λ kv, ReqSet kv.1 kv.2 0) <$>
          [("/childMeta/job/5", "a"); ("/childMeta/job/6", "x");
           ("/childMeta/job/5", "b")])).2 =
    invoke ParentMetaReady 5 <$>
      (snd <$> filter (λ kv, kv.1 = "/childMeta/job/5")
                 [("/childMeta/job/5", "a"); ("/childMeta/job/6", "x");
                  ("/childMeta/job/5", "b")]).
Proof.
  assert (Hrun : running (started Samples.chainProc) Samples.parentWatch = true)
    by reflexivity.
  split; [exact Hrun |].
  exact (readiness_signals_in_order (started Samples.chainProc)
           Samples.parentWatch Samples.emptyStore
           [("/childMeta/job/5", "a"); ("/childMeta/job/6", "x");
            ("/childMeta/job/5", "b")] Hrun).
Defined.

Example readiness_signals_sample :
  reaction (started Samples.chainProc) Samples.parentWatch
    (serveAll Samples.emptyStore
       [ReqSet "/childMeta/job/5" "a" 0; ReqSet "/childMeta/job/6" "x" 0;
        ReqSet "/childMeta/job/5" "b" 0]).2 =
  [CallParentMetaReady 5 "a"; CallParentMetaReady 5 "b"].
Proof. vm_compute. reflexivity. Qed.

End Signals.
